(** * Continuous-time HIV cohort model: patient simulation, outcome
      monitors and cohort aggregation

    Shallow embedding of [ct_hiv_model_econ_eval/model_classes.py] and of
    the parts of [ct_hiv_model_econ_eval/input_data.py] it uses.

    Conventions.
    - Python floats (simulation time, costs, utilities) are idealised as
      real numbers.
    - Objects mutated in place become records that are passed and
      returned explicitly.
    - A Python exception is the [Raise] outcome; the [while] loop of
      [Patient.simulate] is run with fuel and [Diverge] is the outcome of
      a run that needs more iterations than the fuel allows.
    - The calls into numpy and deampy (random stream, Gillespie sampler,
      present value of a continuous payment) are the fields of the class
      [Externals]; what the theorems need from them is stated as named
      contracts. *)

From Stdlib Require Import String.
From Stdlib Require Import Reals Lra Lia ZArith List Bool.
From Stdlib Require Import Sorting.Sorted Sorting.Permutation.
From Stdlib Require Import Relations.Relation_Operators.
Import ListNotations.

Local Open Scope R_scope.

(* ------------------------------------------------------------------ *)
(** ** Outcomes of a computation *)

Inductive exn : Type :=
| IndexError
| ValueError.

Inductive outcome (A : Type) : Type :=
| Ret (a : A)
| Raise (e : exn)
| Diverge.

Arguments Ret {A} a.
Arguments Raise {A} e.
Arguments Diverge {A}.

Definition bind {A B : Type} (m : outcome A) (k : A -> outcome B) : outcome B :=
  match m with
  | Ret a => k a
  | Raise e => Raise e
  | Diverge => Diverge
  end.

Notation "x <- m ;; k" := (bind m (fun x => k))
  (at level 61, m at next level, right associativity).

(** [l[i]] on a Python list: a negative index counts from the end, an
    index outside [-len, len) raises IndexError. *)
Definition list_get {A : Type} (l : list A) (i : Z) : outcome A :=
  let j := if (i <? 0)%Z then (Z.of_nat (length l) + i)%Z else i in
  if (j <? 0)%Z then Raise IndexError
  else match nth_error l (Z.to_nat j) with
       | Some a => Ret a
       | None => Raise IndexError
       end.

(** [range(n)] *)
Definition range (n : Z) : list Z := map Z.of_nat (seq 0 (Z.to_nat n)).

(* ------------------------------------------------------------------ *)
(** ** input_data.py *)

Inductive HealthStates : Type :=
| CD4_200to500
| CD4_200
| AIDS
| HIV_DEATH
| NATUAL_DEATH.

Definition value (s : HealthStates) : Z :=
  match s with
  | CD4_200to500 => 0
  | CD4_200 => 1
  | AIDS => 2
  | HIV_DEATH => 3
  | NATUAL_DEATH => 4
  end%Z.

(** [HealthStates(i)]: the member whose value is [i], ValueError when
    there is none. *)
Definition HealthStates_of_value (i : Z) : outcome HealthStates :=
  match i with
  | 0%Z => Ret CD4_200to500
  | 1%Z => Ret CD4_200
  | 2%Z => Ret AIDS
  | 3%Z => Ret HIV_DEATH
  | 4%Z => Ret NATUAL_DEATH
  | _ => Raise ValueError
  end.

Definition HealthStates_eqb (a b : HealthStates) : bool :=
  (value a =? value b)%Z.

(** [s in (HealthStates.HIV_DEATH, HealthStates.NATUAL_DEATH)] *)
Definition is_death (s : HealthStates) : bool :=
  HealthStates_eqb s HIV_DEATH || HealthStates_eqb s NATUAL_DEATH.

Definition DISCOUNT : R := 3 / 100.

Definition ANNUAL_STATE_COST : list R := [2756; 3025; 9007; 0].

Definition ANNUAL_STATE_UTILITY : list R := [9 / 10; 85 / 100; 75 / 100; 0].

Definition Zidovudine_COST : R := 2278.

Definition Lamivudine_COST : R := 2086.

(** The attributes of the parameter object that model_classes.py reads. *)
Record Parameters : Type := {
  initialHealthState : HealthStates;
  transRateMatrix : list (list R);
  annualStateCosts : list R;
  annualStateUtilities : list R;
  annualTreatmentCost : R;
  discountRate : R
}.

(* ------------------------------------------------------------------ *)
(** ** Library calls *)

(** The numpy and deampy calls of [Patient.simulate] and of the
    accumulator.  They are functions of their arguments and of the state of
    the random stream, and are taken to return: the errors these libraries
    raise on arguments they refuse (a seed outside numpy's range, a rate
    matrix or a state index that the sampler refuses, a discount rate that
    the present value refuses) are not modelled, so that what is proved of
    a returning call holds where the library returns. *)
Class Externals : Type := {
  (** [np.random.RandomState]: the state of a random stream *)
  RandomState : Type;
  (** [np.random.RandomState(seed=n)] *)
  RandomState_seed : Z -> RandomState;
  (** [Gillespie(transition_rate_matrix=M).get_next_state(i, rng)]:
      the pair (dt, next state index), dt being None when no further
      event occurs, and the random stream after the draw *)
  get_next_state : list (list R) -> Z -> RandomState -> option R * Z * RandomState;
  (** [econ.pv_continuous_payment(payment, discount_rate, (t0, t1))] *)
  pv_continuous_payment : R -> R -> R * R -> R
}.

(** [stats.SummaryStat(name=..., data=...)]: the object keeps its arguments;
    the statistics derived from them, and the error of the library on data
    it refuses, are not modelled. *)
Record SummaryStat : Type := {
  stat_name : string;
  stat_data : list R
}.

(** Modelled from the spec: deampy's [PrevalencePathBatchUpdate] is not part
    of the sources.  The spec describes the series it builds as a step
    function of the count over time that starts at the initial size and
    applies the increments at their times, sorted ascending in time. *)
Fixpoint insert_by_time (c : R * Z) (l : list (R * Z)) : list (R * Z) :=
  match l with
  | [] => [c]
  | d :: l' => if Rle_dec (fst c) (fst d) then c :: d :: l'
               else d :: insert_by_time c l'
  end.

Fixpoint sort_by_time (l : list (R * Z)) : list (R * Z) :=
  match l with
  | [] => []
  | c :: l' => insert_by_time c (sort_by_time l')
  end.

Fixpoint record_increments (size : Z) (changes : list (R * Z)) : list (R * Z) :=
  match changes with
  | [] => []
  | (time, increment) :: rest =>
      (time, (size + increment)%Z) :: record_increments (size + increment)%Z rest
  end.

(** Modelled from the spec: the (time, count) steps of the series, the first
    one being the initial size at time 0. *)
Definition PrevalencePathBatchUpdate (initial_size : Z) (times_of_changes : list R)
    (increments : list Z) : list (R * Z) :=
  (0, initial_size)
    :: record_increments initial_size (sort_by_time (combine times_of_changes increments)).

(* ------------------------------------------------------------------ *)
(** ** model_classes.py *)

Module PatientCostUtilityMonitor.
Section Defs.
Context {E : Externals}.

Record t : Type := {
  tLastRecorded : R;
  params : Parameters;
  totalDiscountedCost : R;
  totalDiscountedUtility : R
}.

Definition init (parameters : Parameters) : t :=
  {| tLastRecorded := 0;
     params := parameters;
     totalDiscountedCost := 0;
     totalDiscountedUtility := 0 |}.

Definition update (self : t) (time : R) (current_state : HealthStates) : outcome t :=
  state_cost <- list_get (annualStateCosts (params self)) (value current_state) ;;
  let cost := state_cost + annualTreatmentCost (params self) in
  utility <- list_get (annualStateUtilities (params self)) (value current_state) ;;
  let discounted_cost :=
    pv_continuous_payment cost (discountRate (params self)) (tLastRecorded self, time) in
  let discounted_utility :=
    pv_continuous_payment utility (discountRate (params self)) (tLastRecorded self, time) in
  Ret {| tLastRecorded := time;
         params := params self;
         totalDiscountedCost := totalDiscountedCost self + discounted_cost;
         totalDiscountedUtility := totalDiscountedUtility self + discounted_utility |}.

(** A sequence of [update] calls, in order. *)
Fixpoint updates (self : t) (calls : list (R * HealthStates)) : outcome t :=
  match calls with
  | [] => Ret self
  | (time, current_state) :: rest =>
      self' <- update self time current_state ;;
      updates self' rest
  end.
End Defs.
End PatientCostUtilityMonitor.

Module PatientStateMonitor.
Section Defs.
Context {E : Externals}.

Record t : Type := {
  currentState : HealthStates;
  survivalTime : option R;
  timeToAIDS : option R;
  costUtilityMonitor : PatientCostUtilityMonitor.t
}.

Definition init (parameters : Parameters) : t :=
  {| currentState := initialHealthState parameters;
     survivalTime := None;
     timeToAIDS := None;
     costUtilityMonitor := PatientCostUtilityMonitor.init parameters |}.

Definition update (self : t) (time : R) (new_state : HealthStates) : outcome t :=
  let survivalTime' :=
    if is_death new_state then Some time else survivalTime self in
  let timeToAIDS' :=
    if negb (HealthStates_eqb (currentState self) AIDS) && HealthStates_eqb new_state AIDS
    then Some time else timeToAIDS self in
  cu <- PatientCostUtilityMonitor.update (costUtilityMonitor self) time (currentState self) ;;
  Ret {| currentState := new_state;
         survivalTime := survivalTime';
         timeToAIDS := timeToAIDS';
         costUtilityMonitor := cu |}.
End Defs.
End PatientStateMonitor.

Module Patient.
Section Defs.
Context {E : Externals}.

Record t : Type := {
  id : Z;
  params : Parameters;
  stateMonitor : PatientStateMonitor.t
}.

Definition init (id : Z) (parameters : Parameters) : t :=
  {| id := id;
     params := parameters;
     stateMonitor := PatientStateMonitor.init parameters |}.

(** The variables of [simulate] that live across iterations of its loop,
    [self.stateMonitor] included. *)
Record locals : Type := {
  clock : R;                (* t *)
  if_stop : bool;
  rng : RandomState;
  monitor : PatientStateMonitor.t
}.

(** One iteration of the [while not if_stop] loop. *)
Definition loop_body (matrix : list (list R)) (sim_length : R) (st : locals)
    : outcome locals :=
  let mon := monitor st in
  let '(dt, new_state_index, rng') :=
    get_next_state matrix (value (PatientStateMonitor.currentState mon)) (rng st) in
  match dt with
  | None =>
      Ret {| clock := clock st; if_stop := true; rng := rng'; monitor := mon |}
  | Some dt =>
      let '(t', new_state_index', if_stop') :=
        if Rgt_dec (dt + clock st) sim_length
        then (sim_length, value (PatientStateMonitor.currentState mon), true)
        else (clock st + dt, new_state_index, if_stop st) in
      new_state <- HealthStates_of_value new_state_index' ;;
      mon' <- PatientStateMonitor.update mon t' new_state ;;
      Ret {| clock := t'; if_stop := if_stop'; rng := rng'; monitor := mon' |}
  end.

Fixpoint while_not_stop (fuel : nat) (matrix : list (list R)) (sim_length : R)
    (st : locals) : outcome locals :=
  if if_stop st then Ret st
  else match fuel with
       | O => Diverge
       | S fuel' =>
           st' <- loop_body matrix sim_length st ;;
           while_not_stop fuel' matrix sim_length st'
       end.

(** The locals on entry to the loop. *)
Definition entry (self : t) : locals :=
  {| clock := 0;
     if_stop := false;
     rng := RandomState_seed (id self);
     monitor := stateMonitor self |}.

Definition simulate (fuel : nat) (self : t) (sim_length : R) : outcome t :=
  st <- while_not_stop fuel (transRateMatrix (params self)) sim_length (entry self) ;;
  Ret {| id := id self; params := params self; stateMonitor := monitor st |}.

(** [step matrix sim_length st st']: the loop, not stopped in [st], runs
    one iteration that ends in [st']. *)
Definition step (matrix : list (list R)) (sim_length : R) (st st' : locals) : Prop :=
  if_stop st = false /\ loop_body matrix sim_length st = Ret st'.

(** The locals the loop goes through from [st] on. *)
Definition reaches (matrix : list (list R)) (sim_length : R) : locals -> locals -> Prop :=
  clos_refl_trans_1n locals (step matrix sim_length).
End Defs.
End Patient.

Module CohortOutcomes.
Section Defs.
Context {E : Externals}.

Record t : Type := {
  survivalTimes : list R;
  timesToAIDS : list R;
  costs : list R;
  utilities : list R;
  nLivingPatients : option (list (R * Z));
  statSurvivalTime : option SummaryStat;
  statTimeToAIDS : option SummaryStat;
  statCost : option SummaryStat;
  statUtility : option SummaryStat
}.

Definition init : t :=
  {| survivalTimes := [];
     timesToAIDS := [];
     costs := [];
     utilities := [];
     nLivingPatients := None;
     statSurvivalTime := None;
     statTimeToAIDS := None;
     statCost := None;
     statUtility := None |}.

Definition append_if_set (l : list R) (x : option R) : list R :=
  match x with
  | Some v => l ++ [v]
  | None => l
  end.

Definition extract_outcome (self : t) (simulated_patient : Patient.t) : t :=
  let mon := Patient.stateMonitor simulated_patient in
  let cu := PatientStateMonitor.costUtilityMonitor mon in
  {| survivalTimes := append_if_set (survivalTimes self) (PatientStateMonitor.survivalTime mon);
     timesToAIDS := append_if_set (timesToAIDS self) (PatientStateMonitor.timeToAIDS mon);
     costs := costs self ++ [PatientCostUtilityMonitor.totalDiscountedCost cu];
     utilities := utilities self ++ [PatientCostUtilityMonitor.totalDiscountedUtility cu];
     nLivingPatients := nLivingPatients self;
     statSurvivalTime := statSurvivalTime self;
     statTimeToAIDS := statTimeToAIDS self;
     statCost := statCost self;
     statUtility := statUtility self |}.

Definition calculate_cohort_outcomes (self : t) (initial_pop_size : Z) : t :=
  {| survivalTimes := survivalTimes self;
     timesToAIDS := timesToAIDS self;
     costs := costs self;
     utilities := utilities self;
     nLivingPatients :=
       Some (PrevalencePathBatchUpdate initial_pop_size (survivalTimes self)
               (repeat (-1)%Z (length (survivalTimes self))));
     statSurvivalTime :=
       Some {| stat_name := "Survival time"; stat_data := survivalTimes self |};
     statTimeToAIDS :=
       Some {| stat_name := "Time until AIDS"; stat_data := timesToAIDS self |};
     statCost :=
       Some {| stat_name := "Discounted cost"; stat_data := costs self |};
     statUtility :=
       Some {| stat_name := "Discounted utility"; stat_data := utilities self |} |}.
End Defs.
End CohortOutcomes.

Module Cohort.
Section Defs.
Context {E : Externals}.

Record t : Type := {
  id : Z;
  popSize : Z;
  params : Parameters;
  cohortOutcomes : CohortOutcomes.t
}.

Definition init (id pop_size : Z) (parameters : Parameters) : t :=
  {| id := id;
     popSize := pop_size;
     params := parameters;
     cohortOutcomes := CohortOutcomes.init |}.

(** The patient created at index [i] of the loop of [simulate]. *)
Definition new_patient (self : t) (i : Z) : Patient.t :=
  Patient.init (id self * popSize self + i)%Z (params self).

(** The [for i in range(self.popSize)] loop over the indices [indices],
    [outcomes] being [self.cohortOutcomes]. *)
Fixpoint for_patients (fuel : nat) (self : t) (sim_length : R) (indices : list Z)
    (outcomes : CohortOutcomes.t) : outcome CohortOutcomes.t :=
  match indices with
  | [] => Ret outcomes
  | i :: rest =>
      patient <- Patient.simulate fuel (new_patient self i) sim_length ;;
      for_patients fuel self sim_length rest
        (CohortOutcomes.extract_outcome outcomes patient)
  end.

Definition simulate (fuel : nat) (self : t) (sim_length : R) : outcome t :=
  outcomes <- for_patients fuel self sim_length (range (popSize self))
                (cohortOutcomes self) ;;
  Ret {| id := id self;
         popSize := popSize self;
         params := params self;
         cohortOutcomes :=
           CohortOutcomes.calculate_cohort_outcomes outcomes (popSize self) |}.

(** The patients of the loop after their simulation, in order: the
    arguments of the successive [extract_outcome] calls. *)
Fixpoint simulated_patients (fuel : nat) (self : t) (sim_length : R) (indices : list Z)
    : outcome (list Patient.t) :=
  match indices with
  | [] => Ret []
  | i :: rest =>
      patient <- Patient.simulate fuel (new_patient self i) sim_length ;;
      patients <- simulated_patients fuel self sim_length rest ;;
      Ret (patient :: patients)
  end.
End Defs.
End Cohort.

(* ------------------------------------------------------------------ *)
(** ** Contracts of the library calls *)

Section Contracts.
Context {E : Externals}.

(** The waiting time and the destination index of a sampler result. *)
Definition sampled_dt (r : option R * Z * RandomState) : option R := fst (fst r).
Definition sampled_index (r : option R * Z * RandomState) : Z := snd (fst r).

(** A state is absorbing for the sampler when it reports no further
    event there, whatever the random stream. *)
Definition absorbing (matrix : list (list R)) (s : HealthStates) : Prop :=
  forall g, sampled_dt (get_next_state matrix (value s) g) = None.

Definition deaths_absorbing (matrix : list (list R)) : Prop :=
  forall s, is_death s = true -> absorbing matrix s.

Definition waits_nonnegative (matrix : list (list R)) : Prop :=
  forall i g dt, sampled_dt (get_next_state matrix i g) = Some dt -> 0 <= dt.

Definition waits_positive (matrix : list (list R)) : Prop :=
  forall i g dt, sampled_dt (get_next_state matrix i g) = Some dt -> 0 < dt.

(** From a health state, every sampled destination has a larger index than
    the state, as under an upper-triangular rate matrix. *)
Definition destinations_advance (matrix : list (list R)) : Prop :=
  forall s g dt, sampled_dt (get_next_state matrix (value s) g) = Some dt ->
    (value s < sampled_index (get_next_state matrix (value s) g))%Z.

(** The present value of a non-negative payment over an interval that
    does not run backwards is non-negative, and it is zero over an empty
    interval. *)
Definition pv_nonnegative : Prop :=
  forall payment rate t0 t1,
    0 <= payment -> t0 <= t1 -> 0 <= pv_continuous_payment payment rate (t0, t1).

Definition pv_empty_interval : Prop :=
  forall payment rate t0, pv_continuous_payment payment rate (t0, t0) = 0.
End Contracts.

(* ------------------------------------------------------------------ *)
(** ** Predicates on parameters, update sequences and runs *)

(** The cost rate charged in each state (the state's annual cost plus the
    annual treatment cost) and the utility rate of each state are
    non-negative. *)
Definition rates_nonnegative (p : Parameters) : Prop :=
  (forall s c, list_get (annualStateCosts p) (value s) = Ret c ->
     0 <= c + annualTreatmentCost p)
  /\ (forall s u, list_get (annualStateUtilities p) (value s) = Ret u -> 0 <= u).

(** The times [times] never go back, starting from [t0]. *)
Fixpoint nondecreasing_from (t0 : R) (times : list R) : Prop :=
  match times with
  | [] => True
  | t :: rest => t0 <= t /\ nondecreasing_from t rest
  end.

Section RunPredicates.
Context {E : Externals}.
Variable matrix : list (list R).
Variable sim_length : R.
Variable p : Parameters.

Import Patient.

(** The ways an iteration can end without raising. *)
Inductive iteration (st st' : locals) : Prop :=
| iteration_absorbed g i
    (Hsample : get_next_state matrix
                 (value (PatientStateMonitor.currentState (monitor st))) (rng st)
               = (None, i, g))
    (Hst' : st' = {| clock := clock st; if_stop := true; rng := g;
                     monitor := monitor st |})
| iteration_truncated d g i mon'
    (Hsample : get_next_state matrix
                 (value (PatientStateMonitor.currentState (monitor st))) (rng st)
               = (Some d, i, g))
    (Hbeyond : d + clock st > sim_length)
    (Hupdate : PatientStateMonitor.update (monitor st) sim_length
                 (PatientStateMonitor.currentState (monitor st)) = Ret mon')
    (Hst' : st' = {| clock := sim_length; if_stop := true; rng := g;
                     monitor := mon' |})
| iteration_event d g i s mon'
    (Hsample : get_next_state matrix
                 (value (PatientStateMonitor.currentState (monitor st))) (rng st)
               = (Some d, i, g))
    (Hwithin : ~ d + clock st > sim_length)
    (Hstate : HealthStates_of_value i = Ret s)
    (Hupdate : PatientStateMonitor.update (monitor st) (clock st + d) s = Ret mon')
    (Hst' : st' = {| clock := clock st + d; if_stop := if_stop st; rng := g;
                     monitor := mon' |}).

(** Survival time and time to AIDS of the monitor against the clock. *)
Definition monitor_times_ordered (st : locals) : Prop :=
  (forall ts, PatientStateMonitor.survivalTime (monitor st) = Some ts ->
     is_death (PatientStateMonitor.currentState (monitor st)) = true /\ ts = clock st)
  /\ (forall ta, PatientStateMonitor.timeToAIDS (monitor st) = Some ta ->
        ta <= clock st /\ clock st <= sim_length).

(** Neither time is set. *)
Definition never_set (st : locals) : Prop :=
  PatientStateMonitor.survivalTime (monitor st) = None
  /\ PatientStateMonitor.timeToAIDS (monitor st) = None.

(** Neither progressed to AIDS nor dead. *)
Definition early_stage (s : HealthStates) : bool :=
  negb (HealthStates_eqb s AIDS) && negb (is_death s).

(** The accumulator of the monitor charges under the parameters [p]. *)
Definition charges_under (st : locals) : Prop :=
  PatientCostUtilityMonitor.params
    (PatientStateMonitor.costUtilityMonitor (monitor st)) = p.
End RunPredicates.

Definition by_time (a b : R * Z) : Prop := fst a <= fst b.

(** The patient's survival time is set. *)
Definition has_survival_time {E : Externals} (patient : Patient.t) : bool :=
  match PatientStateMonitor.survivalTime (Patient.stateMonitor patient) with
  | Some _ => true
  | None => false
  end.

(* ------------------------------------------------------------------ *)
(** ** Concrete library behaviours and parameters *)

(** Modelled from the spec: deampy's [pv_continuous_payment] is not part of
    the sources.  The spec gives the present value over an interval of
    length dt as rate * (1 - e^(-discount * dt)) / discount, and as
    rate * dt when the discount rate is zero. *)
Definition pv_spec (payment discount_rate : R) (discount_period : R * R) : R :=
  let dt := snd discount_period - fst discount_period in
  if Req_dec_T discount_rate 0 then payment * dt
  else payment * (1 - exp (- (discount_rate * dt))) / discount_rate.

(** The same payment stream discounted to time 0 instead of to the start of
    the interval. *)
Definition pv_from_origin (payment discount_rate : R) (discount_period : R * R) : R :=
  if Req_dec_T discount_rate 0 then payment * (snd discount_period - fst discount_period)
  else payment / discount_rate
       * (exp (- (discount_rate * fst discount_period))
          - exp (- (discount_rate * snd discount_period))).

(** A sampler that replays a script: the random stream of seed [n] is the
    position in the script, the k-th draw in state index [i] returns the
    (dt, destination) that [script n k i] gives, and the two death states
    report no further event. *)
Definition scripted (script : Z -> nat -> Z -> R * Z) : Externals :=
  {| RandomState := Z * nat;
     RandomState_seed := fun n => (n, O);
     get_next_state := fun _ i g =>
       if (3 <=? i)%Z then (None, i, g)
       else (Some (fst (script (fst g) (snd g) i)), snd (script (fst g) (snd g) i),
             (fst g, S (snd g)));
     pv_continuous_payment := pv_spec |}.

(** Stage by stage to death from the disease, one year per stage. *)
Definition progression : Externals :=
  scripted (fun _ _ i => (1, (i + 1)%Z)).

(** Back and forth between the first two stages, halving waiting times. *)
Definition zeno : Externals :=
  scripted (fun _ k _ => (/ 2 ^ S k, if Nat.even k then 1%Z else 0%Z)).

(** Zidovudine alone, the costs and utilities of input_data.py. *)
Definition mono_parameters : Parameters :=
  {| initialHealthState := CD4_200to500;
     transRateMatrix := [];
     annualStateCosts := ANNUAL_STATE_COST;
     annualStateUtilities := ANNUAL_STATE_UTILITY;
     annualTreatmentCost := Zidovudine_COST;
     discountRate := DISCOUNT |}.

(** The locals of the run of [zeno] after [k] iterations. *)
Definition zeno_position (k : nat) (st : @Patient.locals zeno) : Prop :=
  Patient.if_stop st = false
  /\ Patient.rng st = (0%Z, k)
  /\ Patient.clock st = 1 - / 2 ^ k
  /\ PatientStateMonitor.currentState (Patient.monitor st)
     = (if Nat.even k then CD4_200to500 else CD4_200)
  /\ PatientCostUtilityMonitor.params
       (PatientStateMonitor.costUtilityMonitor (Patient.monitor st)) = mono_parameters.

(** Evaluates a run on concrete inputs: everything but the arithmetic of
    real numbers is computed, and the horizon tests are decided. *)
Ltac run_concrete :=
  cbv - [Rplus Rminus Rmult Rdiv Rinv Ropp IZR Rgt_dec Rle_dec pv_spec exp pow
         Rgt Rlt Rle Rge];
  repeat match goal with
         | |- context [Rgt_dec ?a ?b] =>
             destruct (Rgt_dec a b); [try (exfalso; lra)|try (exfalso; lra)]
         | |- context [Rle_dec ?a ?b] =>
             destruct (Rle_dec a b); [try (exfalso; lra)|try (exfalso; lra)]
         end.

(** The same in a hypothesis. *)
Ltac run_concrete_in H :=
  cbv - [Rplus Rminus Rmult Rdiv Rinv Ropp IZR Rgt_dec pv_spec exp pow Rgt Rlt Rle Rge] in H;
  repeat match type of H with
         | context [Rgt_dec ?a ?b] =>
             destruct (Rgt_dec a b); [try (exfalso; lra)|try (exfalso; lra)]
         end.

(* ------------------------------------------------------------------ *)
(** ** Simulation settings and the cohorts of CompareAlternatives.py *)

Definition POP_SIZE : Z := 2000.

Definition SIM_LENGTH : R := 1000.

(** [model.Cohort(id=0, pop_size=data.POP_SIZE, parameters=...)]; the
    parameter object of the therapy comes from a module that is not part
    of the sources and is an argument here. *)
Definition cohort_mono (parameters : Parameters) : Cohort.t :=
  Cohort.init 0 POP_SIZE parameters.

(** [model.Cohort(id=1, pop_size=data.POP_SIZE, parameters=...)] *)
Definition cohort_combo (parameters : Parameters) : Cohort.t :=
  Cohort.init 1 POP_SIZE parameters.

(* ------------------------------------------------------------------ *)
(** ** Further predicates on runs *)

(** What [extract_outcome] appends for an attribute that may be None. *)
Definition recorded (x : option R) : list R :=
  match x with
  | Some v => [v]
  | None => []
  end.

Section RunInvariants.
Context {E : Externals}.
Variable matrix : list (list R).
Variable sim_length : R.

Import Patient.

(** The accumulator has recorded up to the clock of the loop. *)
Definition accumulator_at_clock (st : locals) : Prop :=
  PatientCostUtilityMonitor.tLastRecorded
    (PatientStateMonitor.costUtilityMonitor (monitor st)) = clock st.

(** The clock is between 0 and the horizon, and so is a time to AIDS
    that is set. *)
Definition clock_within (st : locals) : Prop :=
  0 <= clock st <= sim_length
  /\ forall ta, PatientStateMonitor.timeToAIDS (monitor st) = Some ta -> 0 <= ta.

(** The totals are at least [c] and [u]. *)
Definition totals_at_least (c u : R) (st : locals) : Prop :=
  c <= PatientCostUtilityMonitor.totalDiscountedCost
         (PatientStateMonitor.costUtilityMonitor (monitor st))
  /\ u <= PatientCostUtilityMonitor.totalDiscountedUtility
            (PatientStateMonitor.costUtilityMonitor (monitor st)).

(** Once the loop has stopped, either the clock is at the horizon or the
    sampler has reported no further event from the current state. *)
Definition stopped_for_a_reason (st : locals) : Prop :=
  if_stop st = true ->
  clock st = sim_length
  \/ exists g, sampled_dt (get_next_state matrix
                            (value (PatientStateMonitor.currentState (monitor st))) g)
               = None.

(** A patient in a death state has its survival time set. *)
Definition dead_has_survival_time (st : locals) : Prop :=
  is_death (PatientStateMonitor.currentState (monitor st)) = true ->
  PatientStateMonitor.survivalTime (monitor st) <> None.

(** The sampler always has a next event from state [s]. *)
Definition never_absorbing (s : HealthStates) : Prop :=
  forall g, sampled_dt (get_next_state matrix (value s) g) <> None.
End RunInvariants.

(* ------------------------------------------------------------------ *)
(** ** Basic facts *)

Lemma HealthStates_of_value_value (s : HealthStates) :
  HealthStates_of_value (value s) = Ret s.
Proof. destruct s; reflexivity. Qed.

Lemma bind_Ret_inv {A B : Type} (m : outcome A) (k : A -> outcome B) (b : B) :
  bind m k = Ret b -> exists a, m = Ret a /\ k a = Ret b.
Proof. destruct m; simpl; try discriminate. intros H; exists a; auto. Qed.

Section StepFacts.
Context {E : Externals}.

Lemma while_stopped fuel matrix sim_length (st : Patient.locals) :
  Patient.if_stop st = true ->
  Patient.while_not_stop fuel matrix sim_length st = Ret st.
Proof. intros H; destruct fuel; simpl; rewrite H; reflexivity. Qed.

Lemma while_running fuel matrix sim_length (st : Patient.locals) :
  Patient.if_stop st = false ->
  Patient.while_not_stop (S fuel) matrix sim_length st =
  (st' <- Patient.loop_body matrix sim_length st ;;
   Patient.while_not_stop fuel matrix sim_length st').
Proof. intros H; simpl; rewrite H; reflexivity. Qed.
End StepFacts.

(* ------------------------------------------------------------------ *)
(** ** The step of Patient.simulate *)

(** C1.  One iteration of the loop of [Patient.simulate], entered with
    [if_stop] false, the sampler returning [(dt, i)]:
    - [dt] is None: the loop ends with the monitor as it was;
    - [dt + t > sim_length]: one monitor update at time [sim_length] with the
      patient's current state as the new state, then the loop ends;
    - otherwise, [i] being the value of state [s]: one monitor update at
      time [t + dt] with [s], and the loop goes on from there. *)
Theorem simulate_step {E : Externals} (fuel : nat) (matrix : list (list R))
    (sim_length : R) (st : Patient.locals) (dt : option R) (i : Z) (g : RandomState)
    (Hrun : Patient.if_stop st = false)
    (Hsample : get_next_state matrix
                 (value (PatientStateMonitor.currentState (Patient.monitor st)))
                 (Patient.rng st) = (dt, i, g)) :
  let mon := Patient.monitor st in
  let t := Patient.clock st in
  (dt = None ->
     Patient.while_not_stop (S fuel) matrix sim_length st =
     Ret {| Patient.clock := t; Patient.if_stop := true;
            Patient.rng := g; Patient.monitor := mon |})
  /\ (forall d, dt = Some d -> d + t > sim_length ->
        Patient.while_not_stop (S fuel) matrix sim_length st =
        (mon' <- PatientStateMonitor.update mon sim_length
                   (PatientStateMonitor.currentState mon) ;;
         Ret {| Patient.clock := sim_length; Patient.if_stop := true;
                Patient.rng := g; Patient.monitor := mon' |}))
  /\ (forall d s, dt = Some d -> ~ d + t > sim_length ->
        HealthStates_of_value i = Ret s ->
        Patient.while_not_stop (S fuel) matrix sim_length st =
        (mon' <- PatientStateMonitor.update mon (t + d) s ;;
         Patient.while_not_stop fuel matrix sim_length
           {| Patient.clock := t + d; Patient.if_stop := false;
              Patient.rng := g; Patient.monitor := mon' |})).
Proof.
  intros mon t; subst mon t.
  rewrite (while_running _ _ _ _ Hrun).
  unfold Patient.loop_body. rewrite Hsample.
  repeat split.
  - intros ->. simpl. apply while_stopped. reflexivity.
  - intros d -> Hgt.
    destruct (Rgt_dec (d + Patient.clock st) sim_length) as [_|Hn]; [|contradiction].
    rewrite HealthStates_of_value_value. simpl.
    destruct (PatientStateMonitor.update (Patient.monitor st) sim_length _);
      simpl; try reflexivity.
    apply while_stopped. reflexivity.
  - intros d s -> Hle Hs.
    destruct (Rgt_dec (d + Patient.clock st) sim_length) as [Hgt|_]; [contradiction|].
    rewrite Hs, Hrun. simpl.
    destruct (PatientStateMonitor.update (Patient.monitor st) (Patient.clock st + d) s);
      reflexivity.
Qed.

(** The three cases of C1 on the scripted stream [progression]: from the
    first stage with horizon 10 the loop goes on, with horizon 1/2 it is
    cut at the horizon, and from death it ends with no update. *)
Lemma simulate_step_witness :
  let at_state s :=
    {| Patient.clock := 0; Patient.if_stop := false;
       Patient.rng := @RandomState_seed progression 0;
       Patient.monitor :=
         {| PatientStateMonitor.currentState := s;
            PatientStateMonitor.survivalTime := None;
            PatientStateMonitor.timeToAIDS := None;
            PatientStateMonitor.costUtilityMonitor :=
              PatientCostUtilityMonitor.init mono_parameters |} |} in
  Patient.while_not_stop 1 [] 10 (at_state CD4_200to500) =
    (mon' <- PatientStateMonitor.update (E:=progression) (Patient.monitor (at_state CD4_200to500))
               (0 + 1) CD4_200 ;;
     Patient.while_not_stop 0 [] 10
       {| Patient.clock := 0 + 1; Patient.if_stop := false;
          Patient.rng := ((0%Z, 1%nat) : @RandomState progression); Patient.monitor := mon' |})
  /\ Patient.while_not_stop 1 [] (1 / 2) (at_state CD4_200to500) =
    (mon' <- PatientStateMonitor.update (E:=progression) (Patient.monitor (at_state CD4_200to500))
               (1 / 2) CD4_200to500 ;;
     Ret {| Patient.clock := 1 / 2; Patient.if_stop := true;
            Patient.rng := ((0%Z, 1%nat) : @RandomState progression); Patient.monitor := mon' |})
  /\ Patient.while_not_stop 1 [] 10 (at_state HIV_DEATH) =
     Ret {| Patient.clock := 0; Patient.if_stop := true;
            Patient.rng := ((0%Z, 0%nat) : @RandomState progression);
            Patient.monitor := Patient.monitor (at_state HIV_DEATH) |}.
Proof.
  intros at_state.
  split; [|split].
  - refine (proj2 (proj2 (@simulate_step progression 0 [] 10 (at_state CD4_200to500)
                            (Some 1) 1%Z (0%Z, 1%nat) eq_refl eq_refl))
              1 CD4_200 eq_refl _ eq_refl).
    simpl; lra.
  - refine (proj1 (proj2 (@simulate_step progression 0 [] (1 / 2) (at_state CD4_200to500)
                            (Some 1) 1%Z (0%Z, 1%nat) eq_refl eq_refl))
              1 eq_refl _).
    simpl; lra.
  - exact (proj1 (@simulate_step progression 0 [] 10 (at_state HIV_DEATH)
                    None 3%Z (0%Z, 0%nat) eq_refl eq_refl) eq_refl).
Defined.

(* ------------------------------------------------------------------ *)
(** ** The state monitor and the accumulator *)

(** C2.  [PatientStateMonitor.update(time, new_state)] calls the
    accumulator with the state being left, so that the cost and utility
    rates of that state are charged over (tLastRecorded, time), and the
    returned monitor has [new_state] as its current state.  When the
    accumulator raises, the update raises as well. *)
Theorem update_charges_vacated_state {E : Externals} (self : PatientStateMonitor.t)
    (time : R) (new_state : HealthStates) :
  let cu := PatientStateMonitor.costUtilityMonitor self in
  let vacated := PatientStateMonitor.currentState self in
  let p := PatientCostUtilityMonitor.params cu in
  (forall self', PatientStateMonitor.update self time new_state = Ret self' ->
     let cu' := PatientStateMonitor.costUtilityMonitor self' in
     PatientCostUtilityMonitor.update cu time vacated = Ret cu'
     /\ PatientStateMonitor.currentState self' = new_state
     /\ PatientCostUtilityMonitor.tLastRecorded cu' = time
     /\ exists c u,
          list_get (annualStateCosts p) (value vacated) = Ret c
          /\ list_get (annualStateUtilities p) (value vacated) = Ret u
          /\ PatientCostUtilityMonitor.totalDiscountedCost cu' =
             PatientCostUtilityMonitor.totalDiscountedCost cu
             + pv_continuous_payment (c + annualTreatmentCost p) (discountRate p)
                 (PatientCostUtilityMonitor.tLastRecorded cu, time)
          /\ PatientCostUtilityMonitor.totalDiscountedUtility cu' =
             PatientCostUtilityMonitor.totalDiscountedUtility cu
             + pv_continuous_payment u (discountRate p)
                 (PatientCostUtilityMonitor.tLastRecorded cu, time))
  /\ (forall e, PatientCostUtilityMonitor.update cu time vacated = Raise e ->
        PatientStateMonitor.update self time new_state = Raise e).
Proof.
  intros cu vacated p; subst cu vacated p.
  split.
  - intros self' Hupd cu'; subst cu'.
    unfold PatientStateMonitor.update in Hupd.
    apply bind_Ret_inv in Hupd. destruct Hupd as (cu1 & Hcu & Hret).
    inversion Hret; subst self'; clear Hret. simpl.
    split; [exact Hcu|]. split; [reflexivity|].
    unfold PatientCostUtilityMonitor.update in Hcu.
    apply bind_Ret_inv in Hcu. destruct Hcu as (c & Hc & Hcu).
    apply bind_Ret_inv in Hcu. destruct Hcu as (u & Hu & Hcu).
    inversion Hcu; subst cu1; clear Hcu. simpl.
    split; [reflexivity|]. exists c, u. repeat split; assumption.
  - intros e He. unfold PatientStateMonitor.update. rewrite He. reflexivity.
Qed.

(** C2 on the first update of a fresh monitor under [mono_parameters]:
    leaving the first stage at time 1 for the second. *)
Lemma update_charges_vacated_state_witness :
  exists self',
    @PatientStateMonitor.update progression
      (PatientStateMonitor.init mono_parameters) 1 CD4_200 = Ret self'
    /\ PatientStateMonitor.currentState self' = CD4_200
    /\ PatientCostUtilityMonitor.totalDiscountedCost
         (PatientStateMonitor.costUtilityMonitor self')
       = 0 + pv_spec (2756 + 2278) (3 / 100) (0, 1).
Proof.
  eexists. split; [reflexivity|].
  destruct (proj1 (@update_charges_vacated_state progression
                     (PatientStateMonitor.init mono_parameters) 1 CD4_200)
              _ eq_refl) as (_ & Hstate & _).
  split; [exact Hstate|reflexivity].
Defined.

(* ------------------------------------------------------------------ *)
(** ** Discounted totals *)

Lemma last_cons_default {A : Type} (l : list A) (a d : A) :
  last (a :: l) d = last l a.
Proof.
  revert a d. induction l as [|b l IH]; intros a d; [reflexivity|].
  change (last (a :: b :: l) d) with (last (b :: l) d).
  rewrite (IH b d), (IH b a). reflexivity.
Qed.

Lemma nondecreasing_from_app (t0 : R) (l1 l2 : list R) :
  nondecreasing_from t0 (l1 ++ l2) ->
  nondecreasing_from t0 l1 /\ nondecreasing_from (last l1 t0) l2.
Proof.
  revert t0. induction l1 as [|t l1 IH]; intros t0 H.
  - simpl in *. auto.
  - destruct H as [Ht H]. apply IH in H. destruct H as [H1 H2].
    split; [split; assumption|].
    rewrite last_cons_default. exact H2.
Qed.

Lemma exp_nonpos_le_1 (x : R) : x <= 0 -> exp x <= 1.
Proof.
  intros [Hlt| ->].
  - rewrite <- exp_0. left. apply exp_increasing. exact Hlt.
  - rewrite exp_0. lra.
Qed.

Lemma exp_nonneg_ge_1 (x : R) : 0 <= x -> 1 <= exp x.
Proof.
  intros [Hlt| <-].
  - rewrite <- exp_0. left. apply exp_increasing. exact Hlt.
  - rewrite exp_0. lra.
Qed.

Lemma exp_monotone (x y : R) : x <= y -> exp x <= exp y.
Proof.
  intros [Hlt| ->]; [left; apply exp_increasing; exact Hlt | lra].
Qed.

(** The spec's formula meets the contract of the present value, whatever
    the sign of the discount rate. *)
Lemma pv_spec_nonnegative (payment rate t0 t1 : R) :
  0 <= payment -> t0 <= t1 -> 0 <= pv_spec payment rate (t0, t1).
Proof.
  intros Hp Ht. unfold pv_spec. simpl.
  destruct (Req_dec_T rate 0) as [_|Hr].
  - apply Rmult_le_pos; lra.
  - unfold Rdiv. rewrite Rmult_assoc. apply Rmult_le_pos; [exact Hp|].
    destruct (Rlt_le_dec rate 0) as [Hneg|Hpos].
    + assert (H1 : 1 <= exp (- (rate * (t1 - t0)))) by (apply exp_nonneg_ge_1; nra).
      assert (H2 : / rate < 0) by (apply Rinv_lt_0_compat; exact Hneg).
      nra.
    + assert (H1 : exp (- (rate * (t1 - t0))) <= 1) by (apply exp_nonpos_le_1; nra).
      assert (H2 : 0 < / rate) by (apply Rinv_0_lt_compat; lra).
      nra.
Qed.

Lemma pv_spec_empty_interval (payment rate t0 : R) :
  pv_spec payment rate (t0, t0) = 0.
Proof.
  unfold pv_spec. simpl.
  destruct (Req_dec_T rate 0) as [_|Hr].
  - ring.
  - replace (- (rate * (t0 - t0))) with 0 by ring. rewrite exp_0.
    unfold Rdiv. ring.
Qed.

(** The variant discounted to time 0 meets the same contract. *)
Lemma pv_from_origin_nonnegative (payment rate t0 t1 : R) :
  0 <= payment -> t0 <= t1 -> 0 <= pv_from_origin payment rate (t0, t1).
Proof.
  intros Hp Ht. unfold pv_from_origin. simpl.
  destruct (Req_dec_T rate 0) as [_|Hr].
  - apply Rmult_le_pos; lra.
  - unfold Rdiv. rewrite Rmult_assoc. apply Rmult_le_pos; [exact Hp|].
    destruct (Rlt_le_dec rate 0) as [Hneg|Hpos].
    + assert (H1 : exp (- (rate * t0)) <= exp (- (rate * t1)))
        by (apply exp_monotone; nra).
      assert (H2 : / rate < 0) by (apply Rinv_lt_0_compat; exact Hneg).
      nra.
    + assert (H1 : exp (- (rate * t1)) <= exp (- (rate * t0)))
        by (apply exp_monotone; nra).
      assert (H2 : 0 < / rate) by (apply Rinv_0_lt_compat; lra).
      nra.
Qed.

Lemma pv_from_origin_empty_interval (payment rate t0 : R) :
  pv_from_origin payment rate (t0, t0) = 0.
Proof.
  unfold pv_from_origin. simpl.
  destruct (Req_dec_T rate 0); ring.
Qed.

Section Totals.
Context {E : Externals}.
Hypothesis pv_nonneg : pv_nonnegative.
Hypothesis pv_empty : pv_empty_interval.

Import PatientCostUtilityMonitor.

Lemma update_fields (self self' : t) time s :
  update self time s = Ret self' ->
  tLastRecorded self' = time /\ params self' = params self.
Proof.
  unfold update. intros H.
  apply bind_Ret_inv in H. destruct H as (c & _ & H).
  apply bind_Ret_inv in H. destruct H as (u & _ & H).
  inversion H; subst; simpl; auto.
Qed.

Lemma update_nondecreasing (self self' : t) time s :
  rates_nonnegative (params self) ->
  tLastRecorded self <= time ->
  update self time s = Ret self' ->
  totalDiscountedCost self <= totalDiscountedCost self'
  /\ totalDiscountedUtility self <= totalDiscountedUtility self'.
Proof.
  intros [Hc Hu] Ht H. unfold update in H.
  apply bind_Ret_inv in H. destruct H as (c & Hgc & H).
  apply bind_Ret_inv in H. destruct H as (u & Hgu & H).
  inversion H; subst; simpl; clear H.
  pose proof (pv_nonneg _ (discountRate (params self)) _ _ (Hc _ _ Hgc) Ht).
  pose proof (pv_nonneg _ (discountRate (params self)) _ _ (Hu _ _ Hgu) Ht).
  lra.
Qed.

Lemma updates_fields (calls : list (R * HealthStates)) (self self' : t) :
  updates self calls = Ret self' ->
  tLastRecorded self' = last (map fst calls) (tLastRecorded self)
  /\ params self' = params self.
Proof.
  revert self. induction calls as [|[time s] calls IH]; intros self H; simpl in H.
  - inversion H; subst; auto.
  - apply bind_Ret_inv in H. destruct H as (self1 & H1 & H).
    apply update_fields in H1. destruct H1 as [Ht Hp].
    apply IH in H. destruct H as [Hl Hq].
    rewrite Hl, Hq, Ht, Hp. split; [|reflexivity].
    change (map fst ((time, s) :: calls)) with (time :: map fst calls).
    rewrite last_cons_default. reflexivity.
Qed.

Lemma updates_nondecreasing (calls : list (R * HealthStates)) (self self' : t) :
  rates_nonnegative (params self) ->
  nondecreasing_from (tLastRecorded self) (map fst calls) ->
  updates self calls = Ret self' ->
  totalDiscountedCost self <= totalDiscountedCost self'
  /\ totalDiscountedUtility self <= totalDiscountedUtility self'.
Proof.
  revert self. induction calls as [|[time s] calls IH]; intros self Hr Hnd H; simpl in H.
  - inversion H; subst; lra.
  - apply bind_Ret_inv in H. destruct H as (self1 & H1 & H).
    destruct Hnd as [Ht Hnd]. simpl in Ht.
    pose proof (update_nondecreasing _ _ _ _ Hr Ht H1) as [Hc Hu].
    apply update_fields in H1. destruct H1 as [Ht1 Hp1].
    assert (Hr1 : rates_nonnegative (params self1)) by (rewrite Hp1; exact Hr).
    rewrite <- Ht1 in Hnd.
    destruct (IH _ Hr1 Hnd H) as [Hc' Hu']. lra.
Qed.

Lemma updates_at_same_time (calls : list (R * HealthStates)) (self self' : t) :
  Forall (fun c => fst c = tLastRecorded self) calls ->
  updates self calls = Ret self' ->
  totalDiscountedCost self' = totalDiscountedCost self
  /\ totalDiscountedUtility self' = totalDiscountedUtility self.
Proof.
  revert self. induction calls as [|[time s] calls IH]; intros self Hall H; simpl in H.
  - inversion H; subst; auto.
  - apply bind_Ret_inv in H. destruct H as (self1 & H1 & H).
    inversion Hall as [|? ? Ht Hrest]; subst. simpl in Ht. subst time.
    pose proof (update_fields _ _ _ _ H1) as [Ht1 _].
    assert (Hrest1 : Forall (fun c => fst c = tLastRecorded self1) calls)
      by (rewrite Ht1; exact Hrest).
    destruct (IH _ Hrest1 H) as [Hc Hu]. rewrite Hc, Hu.
    unfold update in H1.
    apply bind_Ret_inv in H1. destruct H1 as (c & _ & H1).
    apply bind_Ret_inv in H1. destruct H1 as (u & _ & H1).
    inversion H1; subst; simpl. rewrite !pv_empty. lra.
Qed.
End Totals.

(** C3.  For a present value that is non-negative on non-negative payments
    and zero on empty intervals, and non-negative cost and utility rates:
    a fresh accumulator has both totals zero, they are still zero after any
    updates made at time 0, and along any sequence of updates whose times
    never go back from 0 neither total ever decreases from one update to a
    later one. *)
Theorem totals_nondecreasing_and_zero_at_start {E : Externals}
    (Hpv : pv_nonnegative) (Hpv0 : pv_empty_interval)
    (p : Parameters) (Hrates : rates_nonnegative p) :
  let fresh := PatientCostUtilityMonitor.init p in
  (PatientCostUtilityMonitor.totalDiscountedCost fresh = 0
   /\ PatientCostUtilityMonitor.totalDiscountedUtility fresh = 0)
  /\ (forall calls cu,
        Forall (fun c => fst c = 0) calls ->
        PatientCostUtilityMonitor.updates fresh calls = Ret cu ->
        PatientCostUtilityMonitor.totalDiscountedCost cu = 0
        /\ PatientCostUtilityMonitor.totalDiscountedUtility cu = 0)
  /\ (forall earlier later cu1 cu2,
        nondecreasing_from 0 (map fst (earlier ++ later)) ->
        PatientCostUtilityMonitor.updates fresh earlier = Ret cu1 ->
        PatientCostUtilityMonitor.updates cu1 later = Ret cu2 ->
        PatientCostUtilityMonitor.totalDiscountedCost cu1
          <= PatientCostUtilityMonitor.totalDiscountedCost cu2
        /\ PatientCostUtilityMonitor.totalDiscountedUtility cu1
          <= PatientCostUtilityMonitor.totalDiscountedUtility cu2).
Proof.
  intros fresh. split; [split; reflexivity|]. split.
  - intros calls cu Hall Hcu.
    exact (updates_at_same_time Hpv0 calls fresh cu Hall Hcu).
  - intros earlier later cu1 cu2 Hnd H1 H2.
    rewrite map_app in Hnd. apply nondecreasing_from_app in Hnd.
    destruct Hnd as [_ Hnd].
    pose proof (updates_fields _ _ _ H1) as [Ht Hp].
    apply (updates_nondecreasing Hpv later cu1 cu2).
    + rewrite Hp. exact Hrates.
    + rewrite Ht. exact Hnd.
    + exact H2.
Qed.

Lemma mono_parameters_rates_nonnegative : rates_nonnegative mono_parameters.
Proof.
  split; intros s c H; destruct s; cbv in H;
    try discriminate; inversion H; subst; simpl;
    unfold Zidovudine_COST; lra.
Qed.

(** C3 with the spec's present-value formula and [mono_parameters]: a first
    update at time 1 and a second one at time 2. *)
Lemma totals_nondecreasing_and_zero_at_start_witness :
  exists cu1 cu2,
    PatientCostUtilityMonitor.updates (E:=progression)
      (PatientCostUtilityMonitor.init mono_parameters) [(1, CD4_200to500)] = Ret cu1
    /\ PatientCostUtilityMonitor.updates (E:=progression) cu1 [(2, CD4_200)] = Ret cu2
    /\ PatientCostUtilityMonitor.totalDiscountedCost cu1
       <= PatientCostUtilityMonitor.totalDiscountedCost cu2
    /\ PatientCostUtilityMonitor.totalDiscountedUtility cu1
       <= PatientCostUtilityMonitor.totalDiscountedUtility cu2.
Proof.
  do 2 eexists. split; [reflexivity|]. split; [reflexivity|].
  refine (proj2 (proj2 (@totals_nondecreasing_and_zero_at_start progression
            pv_spec_nonnegative pv_spec_empty_interval mono_parameters
            mono_parameters_rates_nonnegative))
            [(1, CD4_200to500)] [(2, CD4_200)] _ _ _ eq_refl eq_refl).
  simpl. repeat split; lra.
Defined.

(* ------------------------------------------------------------------ *)
(** ** Runs of the loop of Patient.simulate *)

Section Runs.
Context {E : Externals}.
Variable matrix : list (list R).
Variable sim_length : R.

Import Patient.

Lemma loop_body_iteration (st st' : locals) :
  loop_body matrix sim_length st = Ret st' -> iteration matrix sim_length st st'.
Proof.
  unfold loop_body.
  destruct (get_next_state matrix _ (rng st)) as [[dt i] g] eqn:Hsample.
  destruct dt as [d|].
  - destruct (Rgt_dec (d + clock st) sim_length) as [Hgt|Hle]; intros H.
    + apply bind_Ret_inv in H. destruct H as (s & Hs & H).
      apply bind_Ret_inv in H. destruct H as (mon' & Hup & H).
      rewrite HealthStates_of_value_value in Hs. inversion Hs; subst s.
      inversion H; subst st'.
      eapply iteration_truncated; eauto.
    + apply bind_Ret_inv in H. destruct H as (s & Hs & H).
      apply bind_Ret_inv in H. destruct H as (mon' & Hup & H).
      inversion H; subst st'.
      eapply iteration_event; eauto.
  - intros H. inversion H; subst st'.
    eapply iteration_absorbed; eauto.
Qed.

Lemma while_reaches (fuel : nat) (st st' : locals) :
  while_not_stop fuel matrix sim_length st = Ret st' ->
  reaches matrix sim_length st st' /\ if_stop st' = true.
Proof.
  revert st. induction fuel as [|fuel IH]; intros st H; simpl in H.
  - destruct (if_stop st) eqn:Hstop; [|discriminate].
    inversion H; subst. split; [apply rt1n_refl|exact Hstop].
  - destruct (if_stop st) eqn:Hstop.
    + inversion H; subst. split; [apply rt1n_refl|exact Hstop].
    + apply bind_Ret_inv in H. destruct H as (st1 & Hbody & H).
      apply IH in H. destruct H as [Hreach Hstop'].
      split; [|exact Hstop'].
      eapply rt1n_trans; [|exact Hreach]. split; assumption.
Qed.

(** A property of the locals that every iteration preserves holds all
    along a run. *)
Lemma reaches_invariant (P : locals -> Prop) :
  (forall st st', if_stop st = false -> iteration matrix sim_length st st' -> P st -> P st') ->
  forall st st', reaches matrix sim_length st st' -> P st -> P st'.
Proof.
  intros Hstep st st' Hreach. induction Hreach as [st|st st1 st2 [Hrun Hbody] _ IH].
  - auto.
  - intros HP. apply IH. eapply Hstep; eauto using loop_body_iteration.
Qed.

Lemma sampled_not_absorbing (s : HealthStates) g d i g' :
  deaths_absorbing matrix ->
  get_next_state matrix (value s) g = (Some d, i, g') ->
  is_death s = false.
Proof.
  intros Habs Hsample. destruct (is_death s) eqn:Hd; [|reflexivity].
  specialize (Habs s Hd g). unfold sampled_dt in Habs.
  rewrite Hsample in Habs. discriminate.
Qed.

Lemma update_monitor_fields (mon mon' : PatientStateMonitor.t) time s :
  PatientStateMonitor.update mon time s = Ret mon' ->
  PatientStateMonitor.currentState mon' = s
  /\ PatientStateMonitor.survivalTime mon' =
     (if is_death s then Some time else PatientStateMonitor.survivalTime mon)
  /\ PatientStateMonitor.timeToAIDS mon' =
     (if negb (HealthStates_eqb (PatientStateMonitor.currentState mon) AIDS)
         && HealthStates_eqb s AIDS
      then Some time else PatientStateMonitor.timeToAIDS mon).
Proof.
  unfold PatientStateMonitor.update. intros H.
  apply bind_Ret_inv in H. destruct H as (cu & _ & H).
  inversion H; subst; simpl; auto.
Qed.

Lemma monitor_times_ordered_step (st st' : locals) :
  deaths_absorbing matrix -> waits_nonnegative matrix ->
  if_stop st = false -> iteration matrix sim_length st st' ->
  monitor_times_ordered sim_length st -> monitor_times_ordered sim_length st'.
Proof.
  intros Habs Hwait Hrun Hit [Hsurv Haids].
  destruct Hit as [g i Hsample ->|d g i mon' Hsample Hbeyond Hupdate ->
                  |d g i s mon' Hsample Hwithin Hstate Hupdate ->].
  - split; simpl; assumption.
  - pose proof (sampled_not_absorbing _ _ _ _ _ Habs Hsample) as Halive.
    apply update_monitor_fields in Hupdate. destruct Hupdate as (Hc & Hs & Ha).
    rewrite Halive in Hs.
    replace (negb _ && _) with false in Ha
      by (destruct (HealthStates_eqb _ AIDS); reflexivity).
    split; simpl; rewrite ?Hc, ?Hs, ?Ha.
    + intros ts Hts. apply Hsurv in Hts. destruct Hts as [Hdead _]. congruence.
    + intros ta Hta. apply Haids in Hta. lra.
  - pose proof (sampled_not_absorbing _ _ _ _ _ Habs Hsample) as Halive.
    assert (Hd : 0 <= d).
    { apply (Hwait (value (PatientStateMonitor.currentState (monitor st))) (rng st)).
      unfold sampled_dt. rewrite Hsample. reflexivity. }
    apply update_monitor_fields in Hupdate. destruct Hupdate as (Hc & Hs & Ha).
    split; simpl; rewrite ?Hc, ?Hs, ?Ha.
    + intros ts Hts. destruct (is_death s).
      * inversion Hts. auto.
      * apply Hsurv in Hts. destruct Hts as [Hdead _]. congruence.
    + intros ta Hta. destruct (negb _ && _).
      * inversion Hta; subst. lra.
      * apply Haids in Hta. lra.
Qed.

End Runs.

Lemma progression_deaths_absorbing matrix : deaths_absorbing (E:=progression) matrix.
Proof. intros s Hs g. destruct s; try discriminate Hs; reflexivity. Qed.

Lemma scripted_waits script matrix (P : R -> Prop) :
  (forall n k i, P (fst (script n k i))) ->
  forall i g dt,
    sampled_dt (get_next_state (Externals:=scripted script) matrix i g) = Some dt -> P dt.
Proof.
  intros Hscript i g dt. unfold sampled_dt. simpl.
  destruct (3 <=? i)%Z; simpl; [discriminate|].
  intros H; inversion H; subst. apply Hscript.
Qed.

Lemma progression_waits_nonnegative matrix : waits_nonnegative (E:=progression) matrix.
Proof.
  unfold waits_nonnegative. apply (scripted_waits _ matrix (fun dt => 0 <= dt)).
  intros; simpl; lra.
Qed.

(** C4.  A patient created and simulated once, under a sampler for which
    the death states are absorbing and waiting times are not negative: if
    both its survival time and its time to AIDS are set when
    [Patient.simulate] returns, the survival time is at least the time to
    AIDS. *)
Theorem survival_not_before_AIDS {E : Externals} (fuel : nat) (id : Z) (p : Parameters)
    (sim_length : R) (patient : Patient.t) (ts ta : R)
    (Habs : deaths_absorbing (transRateMatrix p))
    (Hwait : waits_nonnegative (transRateMatrix p))
    (Hsim : Patient.simulate fuel (Patient.init id p) sim_length = Ret patient)
    (Hts : PatientStateMonitor.survivalTime (Patient.stateMonitor patient) = Some ts)
    (Hta : PatientStateMonitor.timeToAIDS (Patient.stateMonitor patient) = Some ta) :
  ts >= ta.
Proof.
  unfold Patient.simulate in Hsim.
  apply bind_Ret_inv in Hsim. destruct Hsim as (st & Hloop & Hret).
  inversion Hret; subst patient; clear Hret. simpl in Hts, Hta.
  apply while_reaches in Hloop. destruct Hloop as [Hreach _].
  assert (Hinv : monitor_times_ordered sim_length st).
  { refine (reaches_invariant _ _ (monitor_times_ordered sim_length) _ _ _ Hreach _).
    - intros st1 st2 Hrun Hit. simpl in Hit.
      exact (monitor_times_ordered_step _ _ st1 st2 Habs Hwait Hrun Hit).
    - split; simpl; discriminate. }
  destruct Hinv as [Hsurv Haids].
  apply Hsurv in Hts. apply Haids in Hta. lra.
Qed.

(** The run of the first patient under [progression] with horizon 10: three
    events, at times 1, 2 and 3, end in death from the disease. *)
Lemma progression_run :
  exists patient,
    Patient.simulate (E:=progression) 4 (Patient.init 0 mono_parameters) 10 = Ret patient
    /\ PatientStateMonitor.survivalTime (Patient.stateMonitor patient) = Some (0 + 1 + 1 + 1)
    /\ PatientStateMonitor.timeToAIDS (Patient.stateMonitor patient) = Some (0 + 1 + 1).
Proof.
  eexists. split; [run_concrete; reflexivity|]. split; reflexivity.
Qed.

Lemma survival_not_before_AIDS_witness :
  exists patient ts ta,
    Patient.simulate (E:=progression) 4 (Patient.init 0 mono_parameters) 10 = Ret patient
    /\ PatientStateMonitor.survivalTime (Patient.stateMonitor patient) = Some ts
    /\ PatientStateMonitor.timeToAIDS (Patient.stateMonitor patient) = Some ta
    /\ ts >= ta.
Proof.
  destruct progression_run as (patient & Hsim & Hts & Hta).
  exists patient, (0 + 1 + 1 + 1), (0 + 1 + 1).
  split; [exact Hsim|]. split; [exact Hts|]. split; [exact Hta|].
  exact (@survival_not_before_AIDS progression 4 0%Z mono_parameters 10 patient _ _
           (progression_deaths_absorbing _) (progression_waits_nonnegative _)
           Hsim Hts Hta).
Defined.

(* ------------------------------------------------------------------ *)
(** ** Extraction of a patient's outcomes *)

Section Censoring.
Context {E : Externals}.
Variable matrix : list (list R).
Variable sim_length : R.

Import Patient.

Lemma reaches_step_last (st st1 st2 : locals) :
  reaches matrix sim_length st st1 -> step matrix sim_length st1 st2 ->
  reaches matrix sim_length st st2.
Proof.
  intros Hreach Hstep. induction Hreach as [st|st sta stb Hs _ IH].
  - eapply rt1n_trans; [exact Hstep|apply rt1n_refl].
  - eapply rt1n_trans; [exact Hs|apply IH; exact Hstep].
Qed.

Lemma update_to_early_stage (mon mon' : PatientStateMonitor.t) time s :
  PatientStateMonitor.update mon time s = Ret mon' ->
  early_stage s = true ->
  PatientStateMonitor.survivalTime mon' = PatientStateMonitor.survivalTime mon
  /\ PatientStateMonitor.timeToAIDS mon' = PatientStateMonitor.timeToAIDS mon.
Proof.
  intros Hup Hearly. apply update_monitor_fields in Hup.
  destruct Hup as (_ & Hs & Ha). rewrite Hs, Ha.
  unfold early_stage in Hearly. apply andb_true_iff in Hearly.
  destruct Hearly as [Hna Hnd]. apply negb_true_iff in Hna, Hnd.
  rewrite Hna, Hnd, andb_false_r. auto.
Qed.

Lemma early_stage_run_never_set (st0 st : locals) :
  (forall st', reaches matrix sim_length st0 st' ->
     early_stage (PatientStateMonitor.currentState (monitor st')) = true) ->
  never_set st0 ->
  reaches matrix sim_length st0 st -> never_set st.
Proof.
  intros Hearly Hinit Hreach.
  cut (reaches matrix sim_length st0 st /\ never_set st); [tauto|].
  refine (reaches_invariant matrix sim_length
            (fun st' => reaches matrix sim_length st0 st' /\ never_set st')
            _ st0 st Hreach _).
  - intros st1 st2 Hrun Hit [Hr1 Hn1].
    assert (Hr2 : reaches matrix sim_length st0 st2).
    { apply (reaches_step_last _ _ _ Hr1). split; [exact Hrun|].
      unfold loop_body.
      destruct Hit as [g i Hsample ->|d g i mon' Hsample Hbeyond Hupdate ->
                      |d g i s mon' Hsample Hwithin Hstate Hupdate ->];
        rewrite Hsample; try reflexivity.
      - destruct (Rgt_dec (d + clock st1) sim_length); [|contradiction].
        rewrite HealthStates_of_value_value. simpl. rewrite Hupdate. reflexivity.
      - destruct (Rgt_dec (d + clock st1) sim_length); [contradiction|].
        rewrite Hstate. simpl. rewrite Hupdate. reflexivity. }
    split; [exact Hr2|].
    specialize (Hearly _ Hr2). destruct Hn1 as [Hs1 Ha1].
    destruct Hit as [g i Hsample ->|d g i mon' Hsample Hbeyond Hupdate ->
                    |d g i s mon' Hsample Hwithin Hstate Hupdate ->];
      simpl in *.
    + split; assumption.
    + pose proof (update_monitor_fields _ _ _ _ Hupdate) as (Hc & _).
      rewrite Hc in Hearly.
      destruct (update_to_early_stage _ _ _ _ Hupdate Hearly) as [Hs Ha].
      split; simpl; congruence.
    + pose proof (update_monitor_fields _ _ _ _ Hupdate) as (Hc & _).
      rewrite Hc in Hearly.
      destruct (update_to_early_stage _ _ _ _ Hupdate Hearly) as [Hs Ha].
      split; simpl; congruence.
  - split; [apply rt1n_refl|exact Hinit].
Qed.
End Censoring.

Section CohortLoop.
Context {E : Externals}.

Import CohortOutcomes.

Lemma length_append_if_set (l : list R) (x : option R) :
  (length l <= length (append_if_set l x) <= S (length l))%nat.
Proof.
  destruct x; simpl; [rewrite length_app; simpl|]; lia.
Qed.

(** What the loop of [Cohort.simulate] adds to the four collections. *)
Lemma for_patients_lengths fuel self sim_length indices (o o' : t) :
  Cohort.for_patients fuel self sim_length indices o = Ret o' ->
  length (costs o') = (length (costs o) + length indices)%nat
  /\ length (utilities o') = (length (utilities o) + length indices)%nat
  /\ (length (survivalTimes o') <= length (survivalTimes o) + length indices)%nat
  /\ (length (timesToAIDS o') <= length (timesToAIDS o) + length indices)%nat.
Proof.
  revert o. induction indices as [|i indices IH]; intros o H; simpl in H.
  - inversion H; subst. simpl. lia.
  - apply bind_Ret_inv in H. destruct H as (patient & _ & H).
    apply IH in H. destruct H as (Hc & Hu & Hs & Ha).
    simpl in Hc, Hu, Hs, Ha. rewrite length_app in Hc, Hu. simpl in Hc, Hu.
    pose proof (length_append_if_set (survivalTimes o)
                  (PatientStateMonitor.survivalTime (Patient.stateMonitor patient))).
    pose proof (length_append_if_set (timesToAIDS o)
                  (PatientStateMonitor.timeToAIDS (Patient.stateMonitor patient))).
    simpl. lia.
Qed.

Lemma length_range (n : Z) : length (range n) = Z.to_nat n.
Proof. unfold range. rewrite length_map, length_seq. reflexivity. Qed.
End CohortLoop.

(** C5.  A patient created and simulated, then passed to
    [extract_outcome]: exactly one entry, the patient's total, is appended
    to the discounted costs and one to the discounted utilities; and when
    the patient is never in the AIDS state nor in a death state during the
    run, the survival times and the times to AIDS are left as they were.
    Over a whole cohort the costs and the utilities hold one entry per
    patient. *)
Theorem censored_patient_not_recorded {E : Externals} (fuel : nat) (id : Z)
    (p : Parameters) (sim_length : R) (patient : Patient.t) (outcomes : CohortOutcomes.t)
    (Hsim : Patient.simulate fuel (Patient.init id p) sim_length = Ret patient) :
  let outcomes' := CohortOutcomes.extract_outcome outcomes patient in
  let cu := PatientStateMonitor.costUtilityMonitor (Patient.stateMonitor patient) in
  CohortOutcomes.costs outcomes' =
    CohortOutcomes.costs outcomes ++ [PatientCostUtilityMonitor.totalDiscountedCost cu]
  /\ CohortOutcomes.utilities outcomes' =
    CohortOutcomes.utilities outcomes ++ [PatientCostUtilityMonitor.totalDiscountedUtility cu]
  /\ ((forall st,
         Patient.reaches (transRateMatrix p) sim_length
           (Patient.entry (Patient.init id p)) st ->
         early_stage (PatientStateMonitor.currentState (Patient.monitor st)) = true) ->
      CohortOutcomes.survivalTimes outcomes' = CohortOutcomes.survivalTimes outcomes
      /\ CohortOutcomes.timesToAIDS outcomes' = CohortOutcomes.timesToAIDS outcomes)
  /\ (forall fuel' cohort_id pop_size cohort,
        Cohort.simulate fuel' (Cohort.init cohort_id pop_size p) sim_length = Ret cohort ->
        length (CohortOutcomes.costs (Cohort.cohortOutcomes cohort)) = Z.to_nat pop_size
        /\ length (CohortOutcomes.utilities (Cohort.cohortOutcomes cohort))
           = Z.to_nat pop_size).
Proof.
  intros outcomes' cu. subst outcomes' cu.
  split; [reflexivity|]. split; [reflexivity|]. split.
  - intros Hearly.
    unfold Patient.simulate in Hsim.
    apply bind_Ret_inv in Hsim. destruct Hsim as (st & Hloop & Hret).
    inversion Hret; subst patient; clear Hret.
    apply while_reaches in Hloop. destruct Hloop as [Hreach _].
    simpl in Hreach.
    assert (Hnever : never_set st).
    { eapply early_stage_run_never_set; [exact Hearly| |exact Hreach].
      split; reflexivity. }
    destruct Hnever as [Hs Ha]. simpl. rewrite Hs, Ha. auto.
  - intros fuel' cohort_id pop_size cohort Hc.
    unfold Cohort.simulate in Hc.
    apply bind_Ret_inv in Hc. destruct Hc as (o & Hfor & Hret).
    inversion Hret; subst cohort; clear Hret. simpl in *.
    apply for_patients_lengths in Hfor. rewrite length_range in Hfor.
    simpl in Hfor. tauto.
Qed.

(** Under [progression] with horizon 1/2 the first patient is cut at the
    horizon in its first iteration and stays in the first stage. *)
Lemma truncated_run_early_stage (st : Patient.locals) :
  Patient.reaches (E:=progression) [] (1 / 2)
    (Patient.entry (Patient.init 0 mono_parameters)) st ->
  early_stage (PatientStateMonitor.currentState (Patient.monitor st)) = true.
Proof.
  intros Hreach.
  inversion Hreach as [|st1 ? [_ Hbody] Hrest]; subst; [reflexivity|].
  run_concrete_in Hbody. inversion Hbody; subst st1; clear Hbody.
  inversion Hrest as [|st2 ? [Hrun _] _]; subst; [reflexivity|].
  discriminate Hrun.
Qed.

Lemma censored_patient_not_recorded_witness :
  exists patient,
    Patient.simulate (E:=progression) 1 (Patient.init 0 mono_parameters) (1 / 2)
      = Ret patient
    /\ CohortOutcomes.survivalTimes
         (CohortOutcomes.extract_outcome CohortOutcomes.init patient) = []
    /\ CohortOutcomes.timesToAIDS
         (CohortOutcomes.extract_outcome CohortOutcomes.init patient) = []
    /\ length (CohortOutcomes.costs
                 (CohortOutcomes.extract_outcome CohortOutcomes.init patient)) = 1%nat.
Proof.
  assert (Hsim : exists patient,
             Patient.simulate (E:=progression) 1 (Patient.init 0 mono_parameters) (1 / 2)
             = Ret patient).
  { eexists. run_concrete. reflexivity. }
  destruct Hsim as (patient & Hsim). exists patient.
  split; [exact Hsim|].
  destruct (@censored_patient_not_recorded progression 1 0%Z mono_parameters (1 / 2)
              patient CohortOutcomes.init Hsim) as (Hc & _ & Hcensored & _).
  destruct (Hcensored truncated_run_early_stage) as [Hs Ha].
  split; [exact Hs|]. split; [exact Ha|].
  rewrite Hc. reflexivity.
Defined.

(* ------------------------------------------------------------------ *)
(** ** Index of the cost and utility lists *)

Lemma list_get_in_bounds {A : Type} (l : list A) (i : Z) :
  (0 <= i < Z.of_nat (length l))%Z -> exists a, list_get l i = Ret a.
Proof.
  intros Hi. unfold list_get.
  destruct (i <? 0)%Z eqn:Hneg; [apply Z.ltb_lt in Hneg; lia|].
  rewrite Hneg.
  destruct (nth_error l (Z.to_nat i)) as [a|] eqn:Hnth; [eauto|].
  apply nth_error_None in Hnth. lia.
Qed.

Lemma alive_value_below_3 (s : HealthStates) :
  is_death s = false -> (0 <= value s < 3)%Z.
Proof. destruct s; simpl; intros H; try discriminate H; lia. Qed.

Section Bounds.
Context {E : Externals}.
Variable p : Parameters.
Variable sim_length : R.
Hypothesis deaths : deaths_absorbing (transRateMatrix p).
Hypothesis four_costs : length (annualStateCosts p) = 4%nat.
Hypothesis four_utilities : length (annualStateUtilities p) = 4%nat.

Import Patient.

Lemma accumulator_update_alive (cu : PatientCostUtilityMonitor.t) time s :
  PatientCostUtilityMonitor.params cu = p -> is_death s = false ->
  exists cu', PatientCostUtilityMonitor.update cu time s = Ret cu'
              /\ PatientCostUtilityMonitor.params cu' = p.
Proof.
  intros Hp Halive. apply alive_value_below_3 in Halive.
  unfold PatientCostUtilityMonitor.update. rewrite Hp.
  destruct (list_get_in_bounds (annualStateCosts p) (value s)) as [c Hc];
    [rewrite four_costs; lia|].
  destruct (list_get_in_bounds (annualStateUtilities p) (value s)) as [u Hu];
    [rewrite four_utilities; lia|].
  rewrite Hc, Hu. simpl. eexists. split; reflexivity.
Qed.

Lemma monitor_update_alive (mon : PatientStateMonitor.t) time s :
  PatientCostUtilityMonitor.params (PatientStateMonitor.costUtilityMonitor mon) = p ->
  is_death (PatientStateMonitor.currentState mon) = false ->
  exists mon', PatientStateMonitor.update mon time s = Ret mon'
               /\ PatientCostUtilityMonitor.params
                    (PatientStateMonitor.costUtilityMonitor mon') = p.
Proof.
  intros Hp Halive.
  destruct (accumulator_update_alive _ time _ Hp Halive) as (cu' & Hcu & Hp').
  unfold PatientStateMonitor.update. rewrite Hcu. simpl.
  eexists. split; [reflexivity|exact Hp'].
Qed.

Lemma loop_body_in_bounds (st : locals) :
  charges_under p st ->
  (exists st', loop_body (transRateMatrix p) sim_length st = Ret st'
               /\ charges_under p st')
  \/ (loop_body (transRateMatrix p) sim_length st = Raise ValueError
      /\ exists d i g,
           get_next_state (transRateMatrix p)
             (value (PatientStateMonitor.currentState (monitor st))) (rng st)
           = (Some d, i, g)
           /\ HealthStates_of_value i = Raise ValueError).
Proof.
  intros Hp. unfold loop_body.
  destruct (get_next_state _ _ (rng st)) as [[dt i] g] eqn:Hsample.
  destruct dt as [d|].
  - pose proof (sampled_not_absorbing _ _ _ _ _ _ deaths Hsample) as Halive.
    destruct (Rgt_dec (d + clock st) sim_length).
    + rewrite HealthStates_of_value_value. simpl.
      destruct (monitor_update_alive (monitor st) sim_length
                  (PatientStateMonitor.currentState (monitor st)) Hp Halive)
        as (mon' & Hup & Hp').
      rewrite Hup. simpl. left. eexists. split; [reflexivity|exact Hp'].
    + destruct (HealthStates_of_value i) as [s|e|] eqn:Hs.
      * simpl.
        destruct (monitor_update_alive (monitor st) (clock st + d) s Hp Halive)
          as (mon' & Hup & Hp').
        rewrite Hup. simpl. left. eexists. split; [reflexivity|exact Hp'].
      * assert (He : e = ValueError).
        { unfold HealthStates_of_value in Hs.
          repeat match type of Hs with
                 | match ?x with _ => _ end = _ => destruct x; try discriminate Hs
                 end; inversion Hs; reflexivity. }
        subst e. right. split; [reflexivity|]. exists d, i, g. auto.
      * exfalso. unfold HealthStates_of_value in Hs.
        repeat match type of Hs with
               | match ?x with _ => _ end = _ => destruct x; try discriminate Hs
               end.
  - left. eexists. split; [reflexivity|exact Hp].
Qed.

Lemma while_no_IndexError (fuel : nat) (st : locals) :
  charges_under p st ->
  while_not_stop fuel (transRateMatrix p) sim_length st <> Raise IndexError.
Proof.
  revert st. induction fuel as [|fuel IH]; intros st Hp; simpl;
    destruct (if_stop st); try discriminate.
  destruct (loop_body_in_bounds st Hp) as [(st' & Hbody & Hp')|[Hbody _]];
    rewrite Hbody; simpl; [apply IH; exact Hp'|discriminate].
Qed.

Lemma reaches_charges_under (st st' : locals) :
  reaches (transRateMatrix p) sim_length st st' ->
  charges_under p st -> charges_under p st'.
Proof.
  induction 1 as [st|st st1 st2 [_ Hbody] _ IH]; [auto|].
  intros Hp. apply IH.
  destruct (loop_body_in_bounds st Hp) as [(st' & Hbody' & Hp')|[Hbody' _]];
    rewrite Hbody' in Hbody; [|discriminate].
  inversion Hbody; subst. exact Hp'.
Qed.
End Bounds.

(** C10.  A patient created and simulated under a sampler for which the
    death states are absorbing, the cost and utility lists having four
    entries.  At every iteration of a run in which the sampler returns an
    event, which are the iterations that update the monitor, the state the
    accumulator receives (the monitor's current state) is not a death state,
    its value is below 4, and the accumulator update returns.  And
    [Patient.simulate] never raises IndexError. *)
Theorem accumulator_state_in_bounds {E : Externals} (id : Z) (p : Parameters)
    (sim_length : R)
    (Hdeaths : deaths_absorbing (transRateMatrix p))
    (Hcosts : length (annualStateCosts p) = 4%nat)
    (Hutilities : length (annualStateUtilities p) = 4%nat) :
  (forall st d i g,
     Patient.reaches (transRateMatrix p) sim_length
       (Patient.entry (Patient.init id p)) st ->
     get_next_state (transRateMatrix p)
       (value (PatientStateMonitor.currentState (Patient.monitor st)))
       (Patient.rng st) = (Some d, i, g) ->
     let current_state := PatientStateMonitor.currentState (Patient.monitor st) in
     is_death current_state = false
     /\ (0 <= value current_state < 4)%Z
     /\ forall time, exists cu',
          PatientCostUtilityMonitor.update
            (PatientStateMonitor.costUtilityMonitor (Patient.monitor st))
            time current_state = Ret cu')
  /\ (forall fuel,
        Patient.simulate fuel (Patient.init id p) sim_length <> Raise IndexError).
Proof.
  split.
  - intros st d i g Hreach Hsample current_state. subst current_state.
    pose proof (sampled_not_absorbing _ _ _ _ _ _ Hdeaths Hsample) as Halive.
    split; [exact Halive|]. split; [apply alive_value_below_3 in Halive; lia|].
    intros time.
    assert (Hp : charges_under p st).
    { eapply reaches_charges_under; eauto. reflexivity. }
    destruct (accumulator_update_alive p Hcosts Hutilities _ time _ Hp Halive)
      as (cu' & Hcu & _).
    exists cu'. exact Hcu.
  - intros fuel. unfold Patient.simulate.
    pose proof (while_no_IndexError p sim_length Hdeaths Hcosts Hutilities fuel
                  (Patient.entry (Patient.init id p)) eq_refl) as Hno.
    simpl in *.
    destruct (Patient.while_not_stop fuel _ sim_length _); simpl;
      congruence.
Qed.

Lemma accumulator_state_in_bounds_witness :
  (forall fuel,
     Patient.simulate (E:=progression) fuel (Patient.init 0 mono_parameters) 10
     <> Raise IndexError)
  /\ is_death (initialHealthState mono_parameters) = false.
Proof.
  destruct (@accumulator_state_in_bounds progression 0%Z mono_parameters 10
              (progression_deaths_absorbing _) eq_refl eq_refl) as [Hcalls Hno].
  split; [exact Hno|].
  exact (proj1 (Hcalls (Patient.entry (Patient.init 0 mono_parameters))
                  1 1%Z (0%Z, 1%nat) (rt1n_refl _ _ _) eq_refl)).
Defined.

(* ------------------------------------------------------------------ *)
(** ** Termination of Patient.simulate *)

Lemma list_get_not_Diverge {A : Type} (l : list A) (i : Z) : list_get l i <> Diverge.
Proof.
  unfold list_get.
  destruct (_ <? 0)%Z; [discriminate|].
  destruct (nth_error l _); discriminate.
Qed.

Lemma HealthStates_of_value_not_Diverge (i : Z) : HealthStates_of_value i <> Diverge.
Proof.
  destruct (HealthStates_of_value i) as [s|e|] eqn:Hs; try discriminate.
  unfold HealthStates_of_value in Hs.
  repeat match type of Hs with
         | match ?x with _ => _ end = _ => destruct x; try discriminate Hs
         end.
Qed.

Lemma monitor_update_not_Diverge {E : Externals} (mon : PatientStateMonitor.t) time s :
  PatientStateMonitor.update mon time s <> Diverge.
Proof.
  unfold PatientStateMonitor.update, PatientCostUtilityMonitor.update.
  pose proof (list_get_not_Diverge
                (annualStateCosts (PatientCostUtilityMonitor.params
                                     (PatientStateMonitor.costUtilityMonitor mon)))
                (value (PatientStateMonitor.currentState mon))) as Hc.
  pose proof (list_get_not_Diverge
                (annualStateUtilities (PatientCostUtilityMonitor.params
                                         (PatientStateMonitor.costUtilityMonitor mon)))
                (value (PatientStateMonitor.currentState mon))) as Hu.
  destruct (list_get (annualStateCosts _) _); simpl; try congruence.
  destruct (list_get (annualStateUtilities _) _); simpl; congruence.
Qed.

Lemma HealthStates_of_value_bounds (i : Z) (s : HealthStates) :
  HealthStates_of_value i = Ret s -> value s = i /\ (0 <= i <= 4)%Z.
Proof.
  unfold HealthStates_of_value.
  destruct i as [|q|q]; try discriminate.
  - intros H; inversion H; simpl; lia.
  - repeat match goal with
           | r : positive |- _ => destruct r; try discriminate
           end;
      intros H; inversion H; simpl; lia.
Qed.

Section Termination.
Context {E : Externals}.
Variable matrix : list (list R).
Variable sim_length : R.
Hypothesis advance : destinations_advance matrix.

Import Patient.

(** An iteration raises, stops the loop, or moves the patient to a state of
    larger index. *)
Lemma loop_body_advances (st : locals) :
  match loop_body matrix sim_length st with
  | Ret st' =>
      if_stop st' = true
      \/ (value (PatientStateMonitor.currentState (monitor st))
          < value (PatientStateMonitor.currentState (monitor st')))%Z
  | Raise _ => True
  | Diverge => False
  end.
Proof.
  unfold loop_body.
  destruct (get_next_state _ _ (rng st)) as [[dt i] g] eqn:Hsample.
  destruct dt as [d|]; [|simpl; auto].
  assert (Hi : (value (PatientStateMonitor.currentState (monitor st)) < i)%Z).
  { pose proof (advance (PatientStateMonitor.currentState (monitor st)) (rng st) d) as H.
    unfold sampled_dt, sampled_index in H. rewrite Hsample in H. apply H. reflexivity. }
  destruct (Rgt_dec (d + clock st) sim_length) as [Hgt|Hle].
  - rewrite HealthStates_of_value_value. simpl.
    pose proof (monitor_update_not_Diverge (monitor st) sim_length
                  (PatientStateMonitor.currentState (monitor st))) as Hnd.
    destruct (PatientStateMonitor.update _ _ _); simpl; auto.
  - pose proof (HealthStates_of_value_not_Diverge i) as Hnd.
    destruct (HealthStates_of_value i) as [s|e|] eqn:Hs; simpl; auto.
    pose proof (monitor_update_not_Diverge (monitor st) (clock st + d) s) as Hnd'.
    destruct (PatientStateMonitor.update _ _ _) as [mon'|e|] eqn:Hup; simpl; auto.
    right. apply update_monitor_fields in Hup. destruct Hup as (Hc & _).
    apply HealthStates_of_value_bounds in Hs. rewrite Hc. lia.
Qed.

(** From a state of value [v] the loop ends within [5 - v] iterations. *)
Lemma while_ends_when_advancing (n : nat) (st : locals) :
  (4 - value (PatientStateMonitor.currentState (monitor st)) <= Z.of_nat n)%Z ->
  while_not_stop (S n) matrix sim_length st <> Diverge.
Proof.
  revert st. induction n as [|n IH]; intros st Hleft;
    (destruct (if_stop st) eqn:Hstop;
     [rewrite while_stopped by exact Hstop; discriminate|]);
    rewrite while_running by exact Hstop;
    pose proof (loop_body_advances st) as Hprog;
    destruct (loop_body _ _ st) as [st'|e|]; unfold bind;
    try discriminate; try contradiction;
    (destruct Hprog as [Hstop'|Hadvanced];
     [rewrite while_stopped by exact Hstop'; discriminate|]).
  - exfalso.
    assert (value (PatientStateMonitor.currentState (monitor st')) <= 4)%Z
      by (destruct (PatientStateMonitor.currentState (monitor st')); simpl; lia).
    lia.
  - apply IH. lia.
Qed.
End Termination.

(** The waiting times of [zeno] are positive and add up to less than 1. *)
Lemma zeno_waits_positive matrix : waits_positive (E:=zeno) matrix.
Proof.
  unfold waits_positive. apply (scripted_waits _ matrix (fun dt => 0 < dt)).
  intros n k i. cbv beta. unfold fst.
  apply Rinv_0_lt_compat, pow_lt. lra.
Qed.

Lemma half_of_power (k : nat) : 0 < / 2 ^ k /\ / 2 ^ S k = / 2 ^ k / 2.
Proof.
  assert (Hpos : 0 < 2 ^ k) by (apply pow_lt; lra).
  split; [apply Rinv_0_lt_compat; exact Hpos|].
  simpl. rewrite Rinv_mult. lra.
Qed.

Lemma zeno_sample matrix (s : HealthStates) (k : nat) :
  is_death s = false ->
  get_next_state (Externals:=zeno) matrix (value s) (0%Z, k)
  = (Some (/ 2 ^ S k), if Nat.even k then 1%Z else 0%Z, (0%Z, S k)).
Proof. destruct s; intros H; try discriminate H; reflexivity. Qed.

Lemma zeno_iteration (k : nat) (st : @Patient.locals zeno) :
  zeno_position k st ->
  exists st', Patient.loop_body (E:=zeno) [] 1 st = Ret st' /\ zeno_position (S k) st'.
Proof.
  intros (Hstop & Hrng & Hclock & Hcur & Hp).
  destruct (half_of_power k) as [Hpos Hhalf].
  assert (Halive : is_death (PatientStateMonitor.currentState (Patient.monitor st)) = false)
    by (rewrite Hcur; destruct (Nat.even k); reflexivity).
  assert (Hnext : Nat.even (S k) = negb (Nat.even k))
    by (rewrite Nat.even_succ; unfold Nat.odd; reflexivity).
  unfold Patient.loop_body. rewrite Hrng, zeno_sample by exact Halive.
  destruct (Rgt_dec _ 1) as [Hgt|_]; [exfalso; lra|].
  destruct (Nat.even k) eqn:Heven; cbn [HealthStates_of_value bind].
  - destruct (monitor_update_alive (E:=zeno) mono_parameters eq_refl eq_refl
                (Patient.monitor st) (Patient.clock st + / 2 ^ S k) CD4_200 Hp Halive)
      as (mon' & Hup & Hp').
    rewrite Hup. cbn [bind]. eexists. split; [reflexivity|].
    apply update_monitor_fields in Hup. destruct Hup as (Hc & _).
    repeat split; cbn [Patient.if_stop Patient.rng Patient.clock Patient.monitor];
      try assumption; try lra.
    rewrite Hc, Hnext. reflexivity.
  - destruct (monitor_update_alive (E:=zeno) mono_parameters eq_refl eq_refl
                (Patient.monitor st) (Patient.clock st + / 2 ^ S k) CD4_200to500 Hp Halive)
      as (mon' & Hup & Hp').
    rewrite Hup. cbn [bind]. eexists. split; [reflexivity|].
    apply update_monitor_fields in Hup. destruct Hup as (Hc & _).
    repeat split; cbn [Patient.if_stop Patient.rng Patient.clock Patient.monitor];
      try assumption; try lra.
    rewrite Hc, Hnext. reflexivity.
Qed.

Lemma zeno_diverges (fuel k : nat) (st : @Patient.locals zeno) :
  zeno_position k st -> Patient.while_not_stop (E:=zeno) fuel [] 1 st = Diverge.
Proof.
  revert k st. induction fuel as [|fuel IH]; intros k st Hpos;
    pose proof Hpos as (Hstop & _); simpl; rewrite Hstop; [reflexivity|].
  destruct (zeno_iteration k st Hpos) as (st' & Hbody & Hpos').
  rewrite Hbody. simpl. exact (IH (S k) st' Hpos').
Qed.



Lemma progression_destinations_advance matrix :
  destinations_advance (E:=progression) matrix.
Proof.
  intros s g dt H. destruct s; try discriminate H; unfold sampled_index; simpl; lia.
Qed.


(* ------------------------------------------------------------------ *)
(** ** The series of living patients *)

Lemma insert_by_time_perm (c : R * Z) (l : list (R * Z)) :
  Permutation (insert_by_time c l) (c :: l).
Proof.
  induction l as [|d l IH]; simpl; [apply Permutation_refl|].
  destruct (Rle_dec (fst c) (fst d)); [apply Permutation_refl|].
  eapply perm_trans; [apply perm_skip; exact IH|apply perm_swap].
Qed.

Lemma sort_by_time_perm (l : list (R * Z)) : Permutation (sort_by_time l) l.
Proof.
  induction l as [|c l IH]; simpl; [apply perm_nil|].
  eapply perm_trans; [apply insert_by_time_perm|apply perm_skip; exact IH].
Qed.

Lemma insert_by_time_sorted (c : R * Z) (l : list (R * Z)) :
  Sorted by_time l -> Sorted by_time (insert_by_time c l).
Proof.
  induction 1 as [|d l Hsorted IH Hhd]; simpl.
  - repeat constructor.
  - destruct (Rle_dec (fst c) (fst d)) as [Hle|Hgt].
    + constructor; [constructor; assumption|constructor; exact Hle].
    + constructor; [exact IH|].
      destruct l as [|e l]; simpl.
      * constructor. unfold by_time. lra.
      * destruct (Rle_dec (fst c) (fst e)); constructor.
        -- unfold by_time. lra.
        -- inversion Hhd; assumption.
Qed.

Lemma sort_by_time_sorted (l : list (R * Z)) : Sorted by_time (sort_by_time l).
Proof.
  induction l as [|c l IH]; simpl; [constructor|].
  apply insert_by_time_sorted. exact IH.
Qed.

Lemma Sorted_by_time_times (l : list (R * Z)) :
  Sorted by_time l -> Sorted Rle (map fst l).
Proof.
  induction 1 as [|d l Hsorted IH Hhd]; simpl; constructor; [exact IH|].
  destruct Hhd; simpl; constructor; assumption.
Qed.

Lemma record_increments_times (size : Z) (changes : list (R * Z)) :
  map fst (record_increments size changes) = map fst changes.
Proof.
  revert size. induction changes as [|[time increment] rest IH]; intros size;
    simpl; [reflexivity|]. rewrite IH. reflexivity.
Qed.

Lemma record_increments_counts (size : Z) (changes : list (R * Z)) :
  Forall (fun c => snd c = (-1)%Z) changes ->
  map snd (record_increments size changes)
  = map (fun k => (size - Z.of_nat (S k))%Z) (seq 0 (length changes)).
Proof.
  revert size. induction changes as [|[time increment] rest IH]; intros size Hall;
    simpl; [reflexivity|].
  inversion Hall as [|? ? Hinc Hrest]; subst. simpl in Hinc. subst increment.
  f_equal.
  rewrite (IH _ Hrest), <- seq_shift, map_map.
  apply map_ext. intros k. lia.
Qed.

Lemma combine_repeat_times (times : list R) (increment : Z) :
  map fst (combine times (repeat increment (length times))) = times
  /\ Forall (fun c => snd c = increment) (combine times (repeat increment (length times))).
Proof.
  induction times as [|time times [IH1 IH2]]; simpl; [split; constructor|].
  split; [rewrite IH1; reflexivity|constructor; [reflexivity|exact IH2]].
Qed.

Section Collected.
Context {E : Externals}.

Import CohortOutcomes.

Lemma for_patients_simulated fuel self sim_length indices (o o' : t) :
  Cohort.for_patients fuel self sim_length indices o = Ret o' ->
  exists patients,
    Cohort.simulated_patients fuel self sim_length indices = Ret patients
    /\ o' = fold_left extract_outcome patients o.
Proof.
  revert o. induction indices as [|i indices IH]; intros o H; simpl in H |- *.
  - inversion H; subst. exists []. split; reflexivity.
  - apply bind_Ret_inv in H. destruct H as (patient & Hsim & H).
    apply IH in H. destruct H as (patients & Hrest & Ho').
    rewrite Hsim, Hrest. simpl. exists (patient :: patients). split; [reflexivity|exact Ho'].
Qed.

Lemma survivalTimes_collected (patients : list Patient.t) (o : t) :
  length (survivalTimes (fold_left extract_outcome patients o))
  = (length (survivalTimes o) + length (filter has_survival_time patients))%nat.
Proof.
  revert o. induction patients as [|patient patients IH]; intros o; simpl; [lia|].
  rewrite IH. unfold has_survival_time. simpl.
  destruct (PatientStateMonitor.survivalTime (Patient.stateMonitor patient)); simpl;
    [rewrite length_app; simpl|]; lia.
Qed.
End Collected.

Lemma last_map_seq {A : Type} (f : nat -> A) (n : nat) (d : A) :
  last (map f (seq 0 (S n))) d = f n.
Proof. rewrite seq_S, map_app. simpl. apply last_last. Qed.

(** C6.  After [Cohort.simulate] the series of living patients starts with
    the population size at time 0; its further steps are at the recorded
    survival times, in ascending order of time; the count goes down by
    exactly one from each step to the next; no count is negative when the
    population size is not; and the total decrease equals the number of
    recorded survival times, which is the number of simulated patients whose
    survival time is set. *)
Theorem living_population_series {E : Externals} (fuel : nat) (id pop_size : Z)
    (p : Parameters) (sim_length : R) (cohort : Cohort.t)
    (Hsim : Cohort.simulate fuel (Cohort.init id pop_size p) sim_length = Ret cohort) :
  let outcomes := Cohort.cohortOutcomes cohort in
  let n := length (CohortOutcomes.survivalTimes outcomes) in
  exists steps,
    CohortOutcomes.nLivingPatients outcomes = Some ((0, pop_size) :: steps)
    /\ Sorted Rle (map fst steps)
    /\ Permutation (map fst steps) (CohortOutcomes.survivalTimes outcomes)
    /\ map snd steps = map (fun k => (pop_size - Z.of_nat (S k))%Z) (seq 0 n)
    /\ ((0 <= pop_size)%Z -> Forall (fun c => (0 <= snd c)%Z) ((0, pop_size) :: steps))
    /\ (pop_size - last (map snd steps) pop_size = Z.of_nat n)%Z
    /\ exists patients,
         Cohort.simulated_patients fuel (Cohort.init id pop_size p) sim_length
           (range pop_size) = Ret patients
         /\ n = length (filter has_survival_time patients).
Proof.
  intros outcomes n. subst outcomes n.
  unfold Cohort.simulate in Hsim.
  apply bind_Ret_inv in Hsim. destruct Hsim as (o & Hfor & Hret).
  inversion Hret; subst cohort; clear Hret.
  cbn [Cohort.cohortOutcomes Cohort.popSize Cohort.init
       CohortOutcomes.calculate_cohort_outcomes CohortOutcomes.survivalTimes
       CohortOutcomes.nLivingPatients] in *.
  set (times := CohortOutcomes.survivalTimes o) in *.
  set (changes := sort_by_time (combine times (repeat (-1)%Z (length times)))).
  destruct (combine_repeat_times times (-1)%Z) as [Htimes Hminus].
  assert (Hperm : Permutation changes (combine times (repeat (-1)%Z (length times))))
    by apply sort_by_time_perm.
  assert (Hlen : length changes = length times).
  { rewrite (Permutation_length Hperm), length_combine, repeat_length. lia. }
  assert (Hall : Forall (fun c => snd c = (-1)%Z) changes).
  { eapply Permutation_Forall; [apply Permutation_sym; exact Hperm|exact Hminus]. }
  assert (Hcounts : map snd (record_increments pop_size changes)
                    = map (fun k => (pop_size - Z.of_nat (S k))%Z) (seq 0 (length times))).
  { rewrite (record_increments_counts _ _ Hall), Hlen. reflexivity. }
  pose proof (for_patients_lengths _ _ _ _ _ _ Hfor) as (_ & _ & Hbound & _).
  rewrite length_range in Hbound. simpl in Hbound. fold times in Hbound.
  exists (record_increments pop_size changes).
  split; [reflexivity|]. split; [|split; [|split; [exact Hcounts|split; [|split]]]].
  - rewrite record_increments_times.
    apply Sorted_by_time_times, sort_by_time_sorted.
  - rewrite record_increments_times.
    eapply perm_trans; [apply Permutation_map; exact Hperm|].
    rewrite Htimes. apply Permutation_refl.
  - intros Hpop. constructor; [simpl; exact Hpop|].
    apply Forall_map. rewrite Hcounts. apply Forall_forall.
    intros z Hz. apply in_map_iff in Hz. destruct Hz as (k & <- & Hk).
    apply in_seq in Hk. lia.
  - rewrite Hcounts. destruct (length times) as [|m] eqn:Hm.
    + simpl. lia.
    + rewrite last_map_seq. lia.
  - destruct (for_patients_simulated _ _ _ _ _ _ Hfor) as (patients & Hpatients & Ho).
    exists patients. split; [exact Hpatients|].
    unfold times. rewrite Ho, survivalTimes_collected. reflexivity.
Qed.

(** Two patients under [progression] with horizon 10: both die at time 3
    and the series goes 2, 1, 0. *)
Lemma living_population_series_witness :
  exists cohort steps,
    Cohort.simulate (E:=progression) 4 (Cohort.init 0 2 mono_parameters) 10 = Ret cohort
    /\ CohortOutcomes.nLivingPatients (Cohort.cohortOutcomes cohort)
       = Some ((0, 2%Z) :: steps)
    /\ map snd steps = [1%Z; 0%Z]
    /\ Forall (fun c => (0 <= snd c)%Z) ((0, 2%Z) :: steps).
Proof.
  assert (Hsim : exists cohort,
             Cohort.simulate (E:=progression) 4 (Cohort.init 0 2 mono_parameters) 10
             = Ret cohort
             /\ length (CohortOutcomes.survivalTimes (Cohort.cohortOutcomes cohort))
                = 2%nat).
  { eexists. split; [run_concrete; reflexivity|reflexivity]. }
  destruct Hsim as (cohort & Hsim & Hn). exists cohort.
  destruct (@living_population_series progression 4 0%Z 2%Z mono_parameters 10 cohort Hsim)
    as (steps & Hseries & _ & _ & Hcounts & Hnonneg & _).
  exists steps. split; [exact Hsim|]. split; [exact Hseries|].
  split; [rewrite Hcounts, Hn; reflexivity|].
  apply Hnonneg. lia.
Defined.

(* ------------------------------------------------------------------ *)
(** ** Configuration *)

(** Against C9 as stated: a cohort of population size -1 is constructed as
    any other; and with the horizon 0 the loop of [Cohort.simulate] simulates
    the patient of a cohort of one and records its cost. *)
Lemma configuration_errors_not_rejected :
  Cohort.popSize (Cohort.init 0 (-1) mono_parameters) = (-1)%Z
  /\ exists outcomes,
       Cohort.for_patients (E:=progression) 1 (Cohort.init 0 1 mono_parameters) 0
         (range 1) CohortOutcomes.init = Ret outcomes
       /\ length (CohortOutcomes.costs outcomes) = 1%nat.
Proof.
  split; [reflexivity|].
  eexists. split; [run_concrete; reflexivity|reflexivity].
Qed.

(** C9 as amended.  Constructing a cohort checks nothing: it stores the id,
    the population size and the parameters as given, with empty outcomes.
    With a population size that is not positive the loop of
    [Cohort.simulate] simulates no patient and leaves the outcomes as they
    are.  The horizon is only compared with the clock inside the loop of
    [Patient.simulate]: with a horizon that is not positive, an iteration
    entered at time 0 in which the sampler returns a positive waiting time
    makes one monitor update, at the horizon and with the current state,
    and ends the loop. *)
Theorem cohort_construction_unchecked {E : Externals} (id pop_size : Z)
    (p : Parameters) (sim_length : R) (fuel : nat) :
  Cohort.init id pop_size p
  = {| Cohort.id := id; Cohort.popSize := pop_size; Cohort.params := p;
       Cohort.cohortOutcomes := CohortOutcomes.init |}
  /\ ((pop_size <= 0)%Z ->
      forall outcomes,
        Cohort.for_patients fuel (Cohort.init id pop_size p) sim_length
          (range pop_size) outcomes = Ret outcomes)
  /\ (sim_length <= 0 ->
      forall (st : Patient.locals) d i g,
        Patient.clock st = 0 -> Patient.if_stop st = false ->
        get_next_state (transRateMatrix p)
          (value (PatientStateMonitor.currentState (Patient.monitor st)))
          (Patient.rng st) = (Some d, i, g) ->
        0 < d ->
        Patient.while_not_stop (S fuel) (transRateMatrix p) sim_length st
        = (mon' <- PatientStateMonitor.update (Patient.monitor st) sim_length
                     (PatientStateMonitor.currentState (Patient.monitor st)) ;;
           Ret {| Patient.clock := sim_length; Patient.if_stop := true;
                  Patient.rng := g; Patient.monitor := mon' |})).
Proof.
  split; [reflexivity|]. split.
  - intros Hpop outcomes. unfold range.
    replace (Z.to_nat pop_size) with 0%nat by lia. reflexivity.
  - intros Hlength st d i g Hclock Hrun Hsample Hd.
    rewrite while_running by exact Hrun.
    unfold Patient.loop_body. rewrite Hsample.
    destruct (Rgt_dec (d + Patient.clock st) sim_length) as [_|Hn];
      [|exfalso; apply Hn; rewrite Hclock; lra].
    rewrite HealthStates_of_value_value. simpl.
    destruct (PatientStateMonitor.update _ _ _); simpl; try reflexivity.
    rewrite while_stopped by reflexivity. reflexivity.
Qed.

Lemma progression_waits_positive matrix : waits_positive (E:=progression) matrix.
Proof.
  unfold waits_positive. apply (scripted_waits _ matrix (fun dt => 0 < dt)).
  intros; simpl; lra.
Qed.

Lemma cohort_construction_unchecked_witness :
  Cohort.for_patients (E:=progression) 1 (Cohort.init 0 (-1) mono_parameters) 0
    (range (-1)) CohortOutcomes.init = Ret CohortOutcomes.init
  /\ Patient.while_not_stop (E:=progression) 1 [] 0
       (Patient.entry (Patient.init 0 mono_parameters))
     = (mon' <- PatientStateMonitor.update (E:=progression)
                  (PatientStateMonitor.init mono_parameters) 0 CD4_200to500 ;;
        Ret {| Patient.clock := 0; Patient.if_stop := true;
               Patient.rng := ((0%Z, 1%nat) : @RandomState progression);
               Patient.monitor := mon' |}).
Proof.
  destruct (@cohort_construction_unchecked progression 0%Z (-1)%Z mono_parameters 0 0)
    as (_ & Hpop & Hhorizon).
  split.
  - exact (Hpop ltac:(lia) CohortOutcomes.init).
  - assert (Hd : 0 < 1) by lra.
    exact (Hhorizon (Rle_refl 0) (Patient.entry (Patient.init 0 mono_parameters))
             1 1%Z (0%Z, 1%nat) eq_refl eq_refl eq_refl Hd).
Defined.

(* ------------------------------------------------------------------ *)
(** ** The enumeration of health states *)

(** X1.  [HealthStates(i)] returns a state exactly for the indices 0 to 4,
    the state whose value is [i], and raises ValueError for any other
    index; every state is recovered from its value, and two states with
    the same value are the same state. *)
Theorem HealthStates_value_round_trip (i : Z) (a b : HealthStates) :
  ((0 <= i <= 4)%Z ->
     exists s, HealthStates_of_value i = Ret s /\ value s = i)
  /\ (~ (0 <= i <= 4)%Z -> HealthStates_of_value i = Raise ValueError)
  /\ HealthStates_of_value (value a) = Ret a
  /\ (0 <= value a <= 4)%Z
  /\ (value a = value b -> a = b).
Proof.
  split; [|split; [|split; [|split]]].
  - intros Hi.
    assert (Hcases : i = 0%Z \/ i = 1%Z \/ i = 2%Z \/ i = 3%Z \/ i = 4%Z) by lia.
    destruct Hcases as [->|[->|[->|[->| ->]]]]; eexists; split; reflexivity.
  - intros Hi. unfold HealthStates_of_value.
    destruct i as [|q|q]; try reflexivity; [lia|].
    repeat (destruct q as [q|q|]; try reflexivity; try lia).
  - apply HealthStates_of_value_value.
  - destruct a; simpl; lia.
  - destruct a, b; simpl; intros H; try reflexivity; discriminate H.
Qed.

Lemma HealthStates_value_round_trip_witness :
  (exists s, HealthStates_of_value 2 = Ret s /\ value s = 2%Z)
  /\ HealthStates_of_value 5 = Raise ValueError
  /\ HealthStates_of_value (-1) = Raise ValueError.
Proof.
  split; [|split].
  - apply (proj1 (HealthStates_value_round_trip 2 AIDS AIDS)). lia.
  - apply (proj1 (proj2 (HealthStates_value_round_trip 5 AIDS AIDS))). lia.
  - apply (proj1 (proj2 (HealthStates_value_round_trip (-1) AIDS AIDS))). lia.
Defined.

(* ------------------------------------------------------------------ *)
(** ** Errors of the accumulator *)

Lemma list_get_nonnegative {A : Type} (l : list A) (i : Z) :
  (0 <= i)%Z ->
  ((i < Z.of_nat (length l))%Z -> exists a, list_get l i = Ret a)
  /\ (~ (i < Z.of_nat (length l))%Z -> list_get l i = Raise IndexError).
Proof.
  intros Hi. split.
  - intros Hlt. apply list_get_in_bounds. lia.
  - intros Hge. unfold list_get.
    destruct (i <? 0)%Z eqn:Hneg; [apply Z.ltb_lt in Hneg; lia|].
    rewrite Hneg.
    destruct (nth_error l (Z.to_nat i)) as [a|] eqn:Hnth; [|reflexivity].
    assert (Hsome : nth_error l (Z.to_nat i) <> None) by congruence.
    apply nth_error_Some in Hsome. lia.
Qed.

Lemma value_nonnegative (s : HealthStates) : (0 <= value s)%Z.
Proof. destruct s; simpl; lia. Qed.

(** X2.  [PatientCostUtilityMonitor.update] raises IndexError exactly when
    the value of the state it is given is not an index of both the cost
    list and the utility list; and when it returns, the state's value is
    such an index, the last recorded time is the time of the update and the
    parameters are unchanged. *)
Theorem accumulator_update_error {E : Externals} (self : PatientCostUtilityMonitor.t)
    (time : R) (current_state : HealthStates) :
  let p := PatientCostUtilityMonitor.params self in
  let indexed :=
    ((value current_state < Z.of_nat (length (annualStateCosts p)))%Z
     /\ (value current_state < Z.of_nat (length (annualStateUtilities p)))%Z) in
  (PatientCostUtilityMonitor.update self time current_state = Raise IndexError
   <-> ~ indexed)
  /\ (forall self',
        PatientCostUtilityMonitor.update self time current_state = Ret self' ->
        indexed
        /\ PatientCostUtilityMonitor.tLastRecorded self' = time
        /\ PatientCostUtilityMonitor.params self' = p).
Proof.
  intros p indexed. subst p indexed.
  pose proof (value_nonnegative current_state) as Hv.
  destruct (list_get_nonnegative
              (annualStateCosts (PatientCostUtilityMonitor.params self)) _ Hv)
    as [Hc Hc'].
  destruct (list_get_nonnegative
              (annualStateUtilities (PatientCostUtilityMonitor.params self)) _ Hv)
    as [Hu Hu'].
  assert (Hraises : ~ ((value current_state
                        < Z.of_nat (length (annualStateCosts
                                              (PatientCostUtilityMonitor.params self))))%Z
                       /\ (value current_state
                           < Z.of_nat (length (annualStateUtilities
                                                 (PatientCostUtilityMonitor.params self))))%Z) ->
                    PatientCostUtilityMonitor.update self time current_state
                    = Raise IndexError).
  { intros Hnot. unfold PatientCostUtilityMonitor.update.
    destruct (Z.lt_ge_cases (value current_state)
                (Z.of_nat (length (annualStateCosts
                                     (PatientCostUtilityMonitor.params self)))))
      as [Hlc|Hgc].
    - destruct (Hc Hlc) as [c ->]. simpl.
      rewrite Hu'; [reflexivity|]. intros Hlu. apply Hnot. split; assumption.
    - rewrite Hc'; [reflexivity|lia]. }
  assert (Hreturns : (value current_state
                      < Z.of_nat (length (annualStateCosts
                                            (PatientCostUtilityMonitor.params self))))%Z
                     /\ (value current_state
                         < Z.of_nat (length (annualStateUtilities
                                               (PatientCostUtilityMonitor.params self))))%Z ->
                     exists self',
                       PatientCostUtilityMonitor.update self time current_state
                       = Ret self').
  { intros [Hlc Hlu]. unfold PatientCostUtilityMonitor.update.
    destruct (Hc Hlc) as [c ->]. destruct (Hu Hlu) as [u ->]. simpl.
    eexists. reflexivity. }
  split; [split|].
  - intros Hraise Hindexed. destruct (Hreturns Hindexed) as [self' Hret]. congruence.
  - exact Hraises.
  - intros self' Hret. split.
    + destruct (Z.lt_ge_cases (value current_state)
                  (Z.of_nat (length (annualStateCosts
                                       (PatientCostUtilityMonitor.params self)))))
        as [Hlc|Hgc];
      destruct (Z.lt_ge_cases (value current_state)
                  (Z.of_nat (length (annualStateUtilities
                                       (PatientCostUtilityMonitor.params self)))))
        as [Hlu|Hgu];
      try (split; assumption);
      exfalso; rewrite Hraises in Hret by lia; discriminate Hret.
    + exact (update_fields _ _ _ _ Hret).
Qed.

(** With the four-entry lists of input_data.py: the update raises IndexError
    for NATUAL_DEATH, and for AIDS it returns with the time recorded. *)
Lemma accumulator_update_error_witness :
  PatientCostUtilityMonitor.update (E:=progression)
    (PatientCostUtilityMonitor.init mono_parameters) 1 NATUAL_DEATH = Raise IndexError
  /\ exists self',
       PatientCostUtilityMonitor.update (E:=progression)
         (PatientCostUtilityMonitor.init mono_parameters) 1 AIDS = Ret self'
       /\ PatientCostUtilityMonitor.tLastRecorded self' = 1.
Proof.
  split.
  - apply (proj1 (@accumulator_update_error progression
                    (PatientCostUtilityMonitor.init mono_parameters) 1 NATUAL_DEATH)).
    simpl. lia.
  - eexists. split; [reflexivity|].
    exact (proj1 (proj2 (proj2 (@accumulator_update_error progression
                                  (PatientCostUtilityMonitor.init mono_parameters) 1 AIDS)
                           _ eq_refl))).
Defined.

(* ------------------------------------------------------------------ *)
(** ** Patient ids *)

Lemma in_range (n i : Z) : In i (range n) <-> (0 <= i < n)%Z.
Proof.
  unfold range. rewrite in_map_iff. split.
  - intros (k & <- & Hk). apply in_seq in Hk. lia.
  - intros Hi. exists (Z.to_nat i). split; [lia|]. apply in_seq. lia.
Qed.

(** X3.  Among cohorts of one population size, the patient ids that
    [Cohort.simulate] derives are all different: two patients have the same
    id only when they have the same index in cohorts of the same id.  So the
    random streams of the patients of such cohorts are seeded with different
    ids. *)
Theorem patient_ids_distinct (pop_size id1 id2 i j : Z)
    (p1 p2 : Parameters)
    (Hi : In i (range pop_size)) (Hj : In j (range pop_size))
    (Hdifferent : id1 <> id2 \/ i <> j) :
  Patient.id (Cohort.new_patient (Cohort.init id1 pop_size p1) i)
  <> Patient.id (Cohort.new_patient (Cohort.init id2 pop_size p2) j).
Proof.
  apply in_range in Hi. apply in_range in Hj. simpl. intros Heq.
  assert (Hid : id1 = id2) by nia.
  subst id2. destruct Hdifferent as [Hd|Hd]; [congruence|]. apply Hd. lia.
Qed.

(** The cohorts of CompareAlternatives.py: the first patient of the mono
    therapy cohort and the first patient of the combination therapy cohort
    have different ids. *)
Lemma patient_ids_distinct_witness :
  Patient.id (Cohort.new_patient (cohort_mono mono_parameters) 0)
  <> Patient.id (Cohort.new_patient (cohort_combo mono_parameters) 0).
Proof.
  apply (patient_ids_distinct POP_SIZE 0 1 0 0 mono_parameters mono_parameters).
  - apply in_range. unfold POP_SIZE. lia.
  - apply in_range. unfold POP_SIZE. lia.
  - left. lia.
Defined.

(* ------------------------------------------------------------------ *)
(** ** Invariants of the loop of Patient.simulate *)

Lemma simulate_run {E : Externals} (fuel : nat) (id : Z) (p : Parameters)
    (sim_length : R) (patient : Patient.t) :
  Patient.simulate fuel (Patient.init id p) sim_length = Ret patient ->
  exists st,
    Patient.reaches (transRateMatrix p) sim_length (Patient.entry (Patient.init id p)) st
    /\ Patient.if_stop st = true
    /\ patient = {| Patient.id := id; Patient.params := p;
                    Patient.stateMonitor := Patient.monitor st |}.
Proof.
  unfold Patient.simulate. intros Hsim.
  apply bind_Ret_inv in Hsim. destruct Hsim as (st & Hloop & Hret).
  apply while_reaches in Hloop. destruct Hloop as [Hreach Hstop].
  exists st. split; [exact Hreach|]. split; [exact Hstop|].
  inversion Hret. reflexivity.
Qed.

Lemma monitor_update_accumulator {E : Externals} (mon mon' : PatientStateMonitor.t)
    (time : R) (s : HealthStates) :
  PatientStateMonitor.update mon time s = Ret mon' ->
  PatientCostUtilityMonitor.update (PatientStateMonitor.costUtilityMonitor mon) time
    (PatientStateMonitor.currentState mon)
  = Ret (PatientStateMonitor.costUtilityMonitor mon').
Proof.
  unfold PatientStateMonitor.update. intros H.
  apply bind_Ret_inv in H. destruct H as (cu & Hcu & H).
  inversion H; subst; simpl. exact Hcu.
Qed.

Section InvariantSteps.
Context {E : Externals}.
Variable matrix : list (list R).
Variable sim_length : R.

Import Patient.

Lemma accumulator_at_clock_step (st st' : locals) :
  iteration matrix sim_length st st' ->
  accumulator_at_clock st -> accumulator_at_clock st'.
Proof.
  unfold accumulator_at_clock.
  intros [g i Hsample ->|d g i mon' Hsample Hbeyond Hupdate ->
         |d g i s mon' Hsample Hwithin Hstate Hupdate ->] Hat; simpl;
    [exact Hat| |];
    apply monitor_update_accumulator, update_fields in Hupdate;
    destruct Hupdate as [Ht _]; exact Ht.
Qed.

Lemma charges_under_step (p : Parameters) (st st' : locals) :
  iteration matrix sim_length st st' ->
  charges_under p st -> charges_under p st'.
Proof.
  unfold charges_under.
  intros [g i Hsample ->|d g i mon' Hsample Hbeyond Hupdate ->
         |d g i s mon' Hsample Hwithin Hstate Hupdate ->] Hp; simpl;
    [exact Hp| |];
    apply monitor_update_accumulator, update_fields in Hupdate;
    destruct Hupdate as [_ Hq]; rewrite Hq; exact Hp.
Qed.

Lemma clock_within_step (st st' : locals) :
  0 <= sim_length -> waits_nonnegative matrix ->
  iteration matrix sim_length st st' ->
  clock_within sim_length st -> clock_within sim_length st'.
Proof.
  intros Hlength Hwaits Hit [Hclock Haids].
  destruct Hit as [g i Hsample ->|d g i mon' Hsample Hbeyond Hupdate ->
                  |d g i s mon' Hsample Hwithin Hstate Hupdate ->].
  - split; simpl; assumption.
  - apply update_monitor_fields in Hupdate. destruct Hupdate as (_ & _ & Ha).
    split; simpl; [lra|]. rewrite Ha. intros ta.
    destruct (negb _ && _); [intros H; inversion H; subst; lra|apply Haids].
  - assert (Hd : 0 <= d).
    { apply (Hwaits (value (PatientStateMonitor.currentState (monitor st))) (rng st)).
      unfold sampled_dt. rewrite Hsample. reflexivity. }
    apply update_monitor_fields in Hupdate. destruct Hupdate as (_ & _ & Ha).
    split; simpl; [lra|]. rewrite Ha. intros ta.
    destruct (negb _ && _); [intros H; inversion H; subst; lra|apply Haids].
Qed.

Lemma totals_step (p : Parameters) (c u : R) (st st' : locals) :
  pv_nonnegative -> rates_nonnegative p -> waits_nonnegative matrix ->
  iteration matrix sim_length st st' ->
  charges_under p st -> accumulator_at_clock st -> clock_within sim_length st ->
  totals_at_least c u st -> totals_at_least c u st'.
Proof.
  intros Hpv Hrates Hwaits Hit Hp Hat [Hclock _] [Hc Hu].
  unfold charges_under in Hp. unfold accumulator_at_clock in Hat.
  assert (Hr : rates_nonnegative
                 (PatientCostUtilityMonitor.params
                    (PatientStateMonitor.costUtilityMonitor (monitor st))))
    by (rewrite Hp; exact Hrates).
  destruct Hit as [g i Hsample ->|d g i mon' Hsample Hbeyond Hupdate ->
                  |d g i s mon' Hsample Hwithin Hstate Hupdate ->].
  - split; simpl; assumption.
  - apply monitor_update_accumulator in Hupdate.
    apply (update_nondecreasing Hpv) in Hupdate; [|exact Hr|lra].
    unfold totals_at_least. simpl. lra.
  - assert (Hd : 0 <= d).
    { apply (Hwaits (value (PatientStateMonitor.currentState (monitor st))) (rng st)).
      unfold sampled_dt. rewrite Hsample. reflexivity. }
    apply monitor_update_accumulator in Hupdate.
    apply (update_nondecreasing Hpv) in Hupdate; [|exact Hr|lra].
    unfold totals_at_least. simpl. lra.
Qed.

Lemma stopped_for_a_reason_step (st st' : locals) :
  if_stop st = false ->
  iteration matrix sim_length st st' ->
  stopped_for_a_reason matrix sim_length st'.
Proof.
  intros Hrun [g i Hsample ->|d g i mon' Hsample Hbeyond Hupdate ->
              |d g i s mon' Hsample Hwithin Hstate Hupdate ->] Hstop; simpl in *.
  - right. exists (rng st). unfold sampled_dt. rewrite Hsample. reflexivity.
  - left. reflexivity.
  - congruence.
Qed.

Lemma dead_has_survival_time_step (st st' : locals) :
  iteration matrix sim_length st st' ->
  dead_has_survival_time st -> dead_has_survival_time st'.
Proof.
  unfold dead_has_survival_time.
  intros [g i Hsample ->|d g i mon' Hsample Hbeyond Hupdate ->
         |d g i s mon' Hsample Hwithin Hstate Hupdate ->] Hdead; simpl;
    [exact Hdead| |];
    apply update_monitor_fields in Hupdate; destruct Hupdate as (Hc & Hs & _);
    rewrite Hc, Hs; intros Hd; rewrite Hd; discriminate.
Qed.
End InvariantSteps.

(* ------------------------------------------------------------------ *)
(** ** What a simulated patient records *)

(** X4.  A patient created and simulated over a horizon that is not
    negative, under a sampler whose waiting times are not negative and for
    which the death states are absorbing: the accumulator has recorded up
    to a time between 0 and the horizon; a survival time that is set lies
    in that range and is the time up to which the accumulator has
    recorded; a time to AIDS that is set lies between 0 and that time. *)
Theorem recorded_times_within_horizon {E : Externals} (fuel : nat) (id : Z)
    (p : Parameters) (sim_length : R) (patient : Patient.t)
    (Hlength : 0 <= sim_length)
    (Hwaits : waits_nonnegative (transRateMatrix p))
    (Hdeaths : deaths_absorbing (transRateMatrix p))
    (Hsim : Patient.simulate fuel (Patient.init id p) sim_length = Ret patient) :
  let mon := Patient.stateMonitor patient in
  let last := PatientCostUtilityMonitor.tLastRecorded
                (PatientStateMonitor.costUtilityMonitor mon) in
  0 <= last <= sim_length
  /\ (forall ts, PatientStateMonitor.survivalTime mon = Some ts ->
        0 <= ts <= sim_length /\ ts = last)
  /\ (forall ta, PatientStateMonitor.timeToAIDS mon = Some ta -> 0 <= ta <= last).
Proof.
  intros mon last. subst mon last.
  destruct (simulate_run _ _ _ _ _ Hsim) as (st & Hreach & _ & ->). simpl.
  assert (Hinv : accumulator_at_clock st /\ clock_within sim_length st
                 /\ monitor_times_ordered sim_length st).
  { refine (reaches_invariant _ _
              (fun st => accumulator_at_clock st /\ clock_within sim_length st
                         /\ monitor_times_ordered sim_length st) _ _ _ Hreach _).
    - intros st1 st2 Hrun Hit (Hat & Hin & Hord).
      split; [eapply accumulator_at_clock_step; eauto|].
      split; [eapply clock_within_step; eauto|].
      eapply monitor_times_ordered_step; eauto.
    - split; [reflexivity|]. split; [split; [simpl; lra|discriminate]|].
      split; simpl; discriminate. }
  destruct Hinv as (Hat & [Hclock Hta0] & [Hsurv Haids]).
  unfold accumulator_at_clock in Hat. rewrite Hat.
  split; [exact Hclock|]. split.
  - intros ts Hts. apply Hsurv in Hts. destruct Hts as [_ ->]. split; [exact Hclock|reflexivity].
  - intros ta Hta. pose proof (Hta0 _ Hta). apply Haids in Hta. lra.
Qed.

Lemma recorded_times_within_horizon_witness :
  exists patient,
    Patient.simulate (E:=progression) 4 (Patient.init 0 mono_parameters) 10 = Ret patient
    /\ 0 + 1 + 1 + 1
       = PatientCostUtilityMonitor.tLastRecorded
           (PatientStateMonitor.costUtilityMonitor (Patient.stateMonitor patient)).
Proof.
  destruct progression_run as (patient & Hsim & Hts & _).
  exists patient. split; [exact Hsim|].
  assert (Hlength : 0 <= 10) by lra.
  exact (proj2 (proj1 (proj2
           (@recorded_times_within_horizon progression 4 0%Z mono_parameters 10 patient
              Hlength (progression_waits_nonnegative _) (progression_deaths_absorbing _)
              Hsim)) _ Hts)).
Defined.

(** X5.  Under a present value that is non-negative on non-negative
    payments, non-negative cost and utility rates, waiting times that are
    not negative and a horizon that is not negative: from any point of the
    run of a created patient to any later point neither discounted total
    decreases, and the totals of the returned patient are not negative. *)
Theorem simulated_totals_never_decrease {E : Externals} (id : Z) (p : Parameters)
    (sim_length : R)
    (Hpv : pv_nonnegative) (Hrates : rates_nonnegative p)
    (Hwaits : waits_nonnegative (transRateMatrix p))
    (Hlength : 0 <= sim_length) :
  let cost st := PatientCostUtilityMonitor.totalDiscountedCost
                   (PatientStateMonitor.costUtilityMonitor (Patient.monitor st)) in
  let utility st := PatientCostUtilityMonitor.totalDiscountedUtility
                      (PatientStateMonitor.costUtilityMonitor (Patient.monitor st)) in
  (forall st st',
     Patient.reaches (transRateMatrix p) sim_length
       (Patient.entry (Patient.init id p)) st ->
     Patient.reaches (transRateMatrix p) sim_length st st' ->
     cost st <= cost st' /\ utility st <= utility st')
  /\ (forall fuel patient,
        Patient.simulate fuel (Patient.init id p) sim_length = Ret patient ->
        let cu := PatientStateMonitor.costUtilityMonitor (Patient.stateMonitor patient) in
        0 <= PatientCostUtilityMonitor.totalDiscountedCost cu
        /\ 0 <= PatientCostUtilityMonitor.totalDiscountedUtility cu).
Proof.
  intros cost utility.
  assert (Hmono : forall st st',
            Patient.reaches (transRateMatrix p) sim_length
              (Patient.entry (Patient.init id p)) st ->
            Patient.reaches (transRateMatrix p) sim_length st st' ->
            cost st <= cost st' /\ utility st <= utility st').
  { intros st st' Hreach Hlater.
    assert (Hst : charges_under p st /\ accumulator_at_clock st
                  /\ clock_within sim_length st).
    { refine (reaches_invariant _ _
                (fun st => charges_under p st /\ accumulator_at_clock st
                           /\ clock_within sim_length st) _ _ _ Hreach _).
      - intros st1 st2 Hrun Hit (Hp & Hat & Hin).
        split; [eapply charges_under_step; eauto|].
        split; [eapply accumulator_at_clock_step; eauto|].
        eapply clock_within_step; eauto.
      - split; [reflexivity|]. split; [reflexivity|].
        split; [simpl; lra|discriminate]. }
    cut ((charges_under p st' /\ accumulator_at_clock st' /\ clock_within sim_length st')
         /\ totals_at_least (cost st) (utility st) st'); [intros [_ H]; exact H|].
    refine (reaches_invariant _ _
              (fun st' => (charges_under p st' /\ accumulator_at_clock st'
                           /\ clock_within sim_length st')
                          /\ totals_at_least (cost st) (utility st) st') _ _ _ Hlater _).
    - intros st1 st2 Hrun Hit ((Hp & Hat & Hin) & Htot).
      split.
      + split; [eapply charges_under_step; eauto|].
        split; [eapply accumulator_at_clock_step; eauto|].
        eapply clock_within_step; eauto.
      + eapply totals_step; eauto.
    - split; [exact Hst|]. split; apply Rle_refl. }
  split; [exact Hmono|].
  intros fuel patient Hsim cu. subst cu.
  destruct (simulate_run _ _ _ _ _ Hsim) as (st & Hreach & _ & ->).
  exact (Hmono _ st (rt1n_refl _ _ _) Hreach).
Qed.

Lemma simulated_totals_never_decrease_witness :
  exists patient,
    Patient.simulate (E:=progression) 4 (Patient.init 0 mono_parameters) 10 = Ret patient
    /\ 0 <= PatientCostUtilityMonitor.totalDiscountedCost
              (PatientStateMonitor.costUtilityMonitor (Patient.stateMonitor patient)).
Proof.
  destruct progression_run as (patient & Hsim & _).
  exists patient. split; [exact Hsim|].
  assert (Hlength : 0 <= 10) by lra.
  exact (proj1 (proj2
           (@simulated_totals_never_decrease progression 0%Z mono_parameters 10
              pv_spec_nonnegative mono_parameters_rates_nonnegative
              (progression_waits_nonnegative _) Hlength) 4%nat patient Hsim)).
Defined.

(** X6.  With the horizon 0, positive waiting times, absorbing death states
    and a present value that is zero on an empty interval, a created patient
    that [Patient.simulate] returns is still in its initial state, has
    neither a survival time nor a time to AIDS, and both its discounted
    totals are 0. *)
Theorem zero_horizon_records_nothing {E : Externals} (fuel : nat) (id : Z)
    (p : Parameters) (patient : Patient.t)
    (Hpv : pv_empty_interval)
    (Hwaits : waits_positive (transRateMatrix p))
    (Hdeaths : deaths_absorbing (transRateMatrix p))
    (Hsim : Patient.simulate fuel (Patient.init id p) 0 = Ret patient) :
  let mon := Patient.stateMonitor patient in
  let cu := PatientStateMonitor.costUtilityMonitor mon in
  PatientStateMonitor.currentState mon = initialHealthState p
  /\ PatientStateMonitor.survivalTime mon = None
  /\ PatientStateMonitor.timeToAIDS mon = None
  /\ PatientCostUtilityMonitor.totalDiscountedCost cu = 0
  /\ PatientCostUtilityMonitor.totalDiscountedUtility cu = 0.
Proof.
  intros mon cu. subst mon cu.
  unfold Patient.simulate in Hsim.
  apply bind_Ret_inv in Hsim. destruct Hsim as (st & Hloop & Hret).
  inversion Hret; subst patient; clear Hret. simpl.
  destruct fuel as [|fuel]; [discriminate Hloop|].
  rewrite while_running in Hloop by reflexivity.
  apply bind_Ret_inv in Hloop. destruct Hloop as (st1 & Hbody & Hloop).
  apply loop_body_iteration in Hbody.
  destruct Hbody as [g i Hsample ->|d g i mon' Hsample Hbeyond Hupdate ->
                    |d g i s mon' Hsample Hwithin Hstate Hupdate ->].
  - rewrite while_stopped in Hloop by reflexivity.
    inversion Hloop; subst st. simpl. repeat split; reflexivity.
  - rewrite while_stopped in Hloop by reflexivity.
    inversion Hloop; subst st. simpl in *.
    pose proof (sampled_not_absorbing _ _ _ _ _ _ Hdeaths Hsample) as Halive.
    pose proof (update_monitor_fields _ _ _ _ Hupdate) as (Hc & Hs & Ha).
    simpl in Hc, Hs, Ha. rewrite Halive in Hs.
    replace (negb _ && _) with false in Ha
      by (destruct (HealthStates_eqb _ AIDS); reflexivity).
    split; [exact Hc|]. split; [exact Hs|]. split; [exact Ha|].
    apply monitor_update_accumulator in Hupdate.
    unfold PatientCostUtilityMonitor.update in Hupdate.
    apply bind_Ret_inv in Hupdate. destruct Hupdate as (c & _ & Hupdate).
    apply bind_Ret_inv in Hupdate. destruct Hupdate as (u & _ & Hupdate).
    inversion Hupdate as [Hcu]. simpl. rewrite !Hpv. lra.
  - exfalso. apply Hwithin.
    assert (Hd : 0 < d).
    { apply (Hwaits (value (initialHealthState p)) (RandomState_seed id)).
      unfold sampled_dt. simpl in Hsample. rewrite Hsample. reflexivity. }
    simpl. lra.
Qed.

Lemma zero_horizon_records_nothing_witness :
  exists patient,
    Patient.simulate (E:=progression) 1 (Patient.init 0 mono_parameters) 0 = Ret patient
    /\ PatientCostUtilityMonitor.totalDiscountedCost
         (PatientStateMonitor.costUtilityMonitor (Patient.stateMonitor patient)) = 0.
Proof.
  assert (Hsim : exists patient,
             Patient.simulate (E:=progression) 1 (Patient.init 0 mono_parameters) 0
             = Ret patient).
  { eexists. run_concrete. reflexivity. }
  destruct Hsim as (patient & Hsim). exists patient. split; [exact Hsim|].
  exact (proj1 (proj2 (proj2 (proj2
           (@zero_horizon_records_nothing progression 1 0%Z mono_parameters patient
              pv_spec_empty_interval (progression_waits_positive _)
              (progression_deaths_absorbing _) Hsim))))).
Defined.

(** X7.  A created patient that [Patient.simulate] returns in a state from
    which the sampler always has a next event was followed to the horizon:
    the accumulator has recorded up to the time [sim_length]. *)
Theorem unabsorbed_patient_followed_to_horizon {E : Externals} (fuel : nat) (id : Z)
    (p : Parameters) (sim_length : R) (patient : Patient.t)
    (Hsim : Patient.simulate fuel (Patient.init id p) sim_length = Ret patient)
    (Hnever : never_absorbing (transRateMatrix p)
                (PatientStateMonitor.currentState (Patient.stateMonitor patient))) :
  PatientCostUtilityMonitor.tLastRecorded
    (PatientStateMonitor.costUtilityMonitor (Patient.stateMonitor patient)) = sim_length.
Proof.
  destruct (simulate_run _ _ _ _ _ Hsim) as (st & Hreach & Hstop & ->).
  simpl in *.
  assert (Hinv : accumulator_at_clock st
                 /\ stopped_for_a_reason (transRateMatrix p) sim_length st).
  { refine (reaches_invariant _ _
              (fun st => accumulator_at_clock st
                         /\ stopped_for_a_reason (transRateMatrix p) sim_length st)
              _ _ _ Hreach _).
    - intros st1 st2 Hrun Hit [Hat _].
      split; [eapply accumulator_at_clock_step; eauto|].
      eapply stopped_for_a_reason_step; eauto.
    - split; [reflexivity|]. intros H. discriminate H. }
  destruct Hinv as [Hat Hreason]. unfold accumulator_at_clock in Hat. rewrite Hat.
  destruct (Hreason Hstop) as [Hclock|[g Hnone]]; [exact Hclock|].
  exfalso. exact (Hnever g Hnone).
Qed.

Lemma unabsorbed_patient_followed_to_horizon_witness :
  exists patient,
    Patient.simulate (E:=progression) 1 (Patient.init 0 mono_parameters) (1 / 2)
      = Ret patient
    /\ PatientCostUtilityMonitor.tLastRecorded
         (PatientStateMonitor.costUtilityMonitor (Patient.stateMonitor patient)) = 1 / 2.
Proof.
  assert (Hsim : exists patient,
             Patient.simulate (E:=progression) 1 (Patient.init 0 mono_parameters) (1 / 2)
             = Ret patient
             /\ PatientStateMonitor.currentState (Patient.stateMonitor patient)
                = CD4_200to500).
  { eexists. split; [run_concrete; reflexivity|reflexivity]. }
  destruct Hsim as (patient & Hsim & Hstate). exists patient. split; [exact Hsim|].
  apply (@unabsorbed_patient_followed_to_horizon progression 1 0%Z mono_parameters
           (1 / 2) patient Hsim).
  rewrite Hstate. intros g. discriminate.
Defined.

(** X8.  A patient created in a state that is not a death state and
    simulated, the death states being absorbing for the sampler: its
    survival time is set exactly when it ends in a death state. *)
Theorem survival_time_set_iff_dead {E : Externals} (fuel : nat) (id : Z)
    (p : Parameters) (sim_length : R) (patient : Patient.t)
    (Hdeaths : deaths_absorbing (transRateMatrix p))
    (Halive : is_death (initialHealthState p) = false)
    (Hsim : Patient.simulate fuel (Patient.init id p) sim_length = Ret patient) :
  PatientStateMonitor.survivalTime (Patient.stateMonitor patient) <> None
  <-> is_death (PatientStateMonitor.currentState (Patient.stateMonitor patient)) = true.
Proof.
  destruct (simulate_run _ _ _ _ _ Hsim) as (st & Hreach & _ & ->). simpl.
  assert (Hinv : (PatientStateMonitor.survivalTime (Patient.monitor st) <> None ->
                  is_death (PatientStateMonitor.currentState (Patient.monitor st)) = true)
                 /\ dead_has_survival_time st).
  { refine (reaches_invariant _ _
              (fun st =>
                 (PatientStateMonitor.survivalTime (Patient.monitor st) <> None ->
                  is_death (PatientStateMonitor.currentState (Patient.monitor st)) = true)
                 /\ dead_has_survival_time st) _ _ _ Hreach _).
    - intros st1 st2 Hrun Hit [Hset Hdead].
      split; [|eapply dead_has_survival_time_step; eauto].
      destruct Hit as [g i Hsample ->|d g i mon' Hsample Hbeyond Hupdate ->
                      |d g i s mon' Hsample Hwithin Hstate Hupdate ->]; simpl.
      + exact Hset.
      + apply update_monitor_fields in Hupdate. destruct Hupdate as (Hc & Hs & _).
        rewrite Hc, Hs.
        destruct (is_death (PatientStateMonitor.currentState (Patient.monitor st1)));
          [reflexivity|exact Hset].
      + pose proof (sampled_not_absorbing _ _ _ _ _ _ Hdeaths Hsample) as Hwas.
        apply update_monitor_fields in Hupdate. destruct Hupdate as (Hc & Hs & _).
        rewrite Hc, Hs. destruct (is_death s); [reflexivity|].
        intros Hold. apply Hset in Hold. congruence.
    - split; [intros H; exfalso; apply H; reflexivity|].
      intros Hd. simpl in Hd. congruence. }
  destruct Hinv as [Hset Hdead]. split; [exact Hset|exact Hdead].
Qed.

Lemma survival_time_set_iff_dead_witness :
  exists patient,
    Patient.simulate (E:=progression) 4 (Patient.init 0 mono_parameters) 10 = Ret patient
    /\ is_death (PatientStateMonitor.currentState (Patient.stateMonitor patient)) = true.
Proof.
  destruct progression_run as (patient & Hsim & Hts & _).
  exists patient. split; [exact Hsim|].
  apply (@survival_time_set_iff_dead progression 4 0%Z mono_parameters 10 patient
           (progression_deaths_absorbing _) eq_refl Hsim).
  rewrite Hts. discriminate.
Defined.

(* ------------------------------------------------------------------ *)
(** ** The collections of a cohort *)

Section Collections.
Context {E : Externals}.

Import CohortOutcomes.

Lemma simulate_keeps_id (fuel : nat) (patient patient' : Patient.t) (sim_length : R) :
  Patient.simulate fuel patient sim_length = Ret patient' ->
  Patient.id patient' = Patient.id patient.
Proof.
  unfold Patient.simulate. intros H.
  apply bind_Ret_inv in H. destruct H as (st & _ & H).
  inversion H. reflexivity.
Qed.

Lemma simulated_patients_ids fuel self sim_length indices patients :
  Cohort.simulated_patients fuel self sim_length indices = Ret patients ->
  map Patient.id patients
  = map (fun i => (Cohort.id self * Cohort.popSize self + i)%Z) indices.
Proof.
  revert patients. induction indices as [|i indices IH]; intros patients H; simpl in H.
  - inversion H. reflexivity.
  - apply bind_Ret_inv in H. destruct H as (patient & Hsim & H).
    apply bind_Ret_inv in H. destruct H as (rest & Hrest & H).
    inversion H; subst patients. simpl.
    rewrite (simulate_keeps_id _ _ _ _ Hsim), (IH _ Hrest). reflexivity.
Qed.

Lemma simulated_patients_same_cohort fuel (a b : Cohort.t) sim_length indices :
  Cohort.id a = Cohort.id b -> Cohort.popSize a = Cohort.popSize b ->
  Cohort.params a = Cohort.params b ->
  Cohort.simulated_patients fuel a sim_length indices
  = Cohort.simulated_patients fuel b sim_length indices.
Proof.
  intros Hid Hpop Hparams. induction indices as [|i indices IH]; simpl; [reflexivity|].
  unfold Cohort.new_patient. rewrite Hid, Hpop, Hparams, IH. reflexivity.
Qed.

Lemma simulated_patients_for_patients fuel self sim_length indices patients (o : t) :
  Cohort.simulated_patients fuel self sim_length indices = Ret patients ->
  Cohort.for_patients fuel self sim_length indices o
  = Ret (fold_left extract_outcome patients o).
Proof.
  revert patients o. induction indices as [|i indices IH]; intros patients o H;
    simpl in H |- *.
  - inversion H. reflexivity.
  - apply bind_Ret_inv in H. destruct H as (patient & Hsim & H).
    apply bind_Ret_inv in H. destruct H as (rest & Hrest & H).
    inversion H; subst patients. rewrite Hsim. simpl. apply IH. exact Hrest.
Qed.

Lemma extracted_collections (patients : list Patient.t) (o : t) :
  let cu patient := PatientStateMonitor.costUtilityMonitor (Patient.stateMonitor patient) in
  let o' := fold_left extract_outcome patients o in
  costs o' = costs o ++ map (fun patient =>
               PatientCostUtilityMonitor.totalDiscountedCost (cu patient)) patients
  /\ utilities o' = utilities o ++ map (fun patient =>
               PatientCostUtilityMonitor.totalDiscountedUtility (cu patient)) patients
  /\ survivalTimes o' = survivalTimes o ++ flat_map (fun patient =>
               recorded (PatientStateMonitor.survivalTime (Patient.stateMonitor patient)))
               patients
  /\ timesToAIDS o' = timesToAIDS o ++ flat_map (fun patient =>
               recorded (PatientStateMonitor.timeToAIDS (Patient.stateMonitor patient)))
               patients.
Proof.
  intros cu o'. subst cu o'. revert o.
  induction patients as [|patient patients IH]; intros o; simpl.
  - rewrite !app_nil_r. auto.
  - destruct (IH (extract_outcome o patient)) as (Hc & Hu & Hs & Ha).
    rewrite Hc, Hu, Hs, Ha. simpl. rewrite <- !app_assoc. simpl.
    repeat split; try reflexivity.
    + destruct (PatientStateMonitor.survivalTime (Patient.stateMonitor patient));
        simpl; [rewrite <- app_assoc|]; reflexivity.
    + destruct (PatientStateMonitor.timeToAIDS (Patient.stateMonitor patient));
        simpl; [rewrite <- app_assoc|]; reflexivity.
Qed.
End Collections.

Lemma simulated_patients_each {E : Externals} fuel self sim_length indices patients :
  Cohort.simulated_patients fuel self sim_length indices = Ret patients ->
  Forall2 (fun i patient =>
             Patient.simulate fuel (Cohort.new_patient self i) sim_length = Ret patient)
    indices patients.
Proof.
  revert patients. induction indices as [|i indices IH]; intros patients H; simpl in H.
  - inversion H. constructor.
  - apply bind_Ret_inv in H. destruct H as (patient & Hsim & H).
    apply bind_Ret_inv in H. destruct H as (rest & Hrest & H).
    inversion H; subst patients. constructor; [exact Hsim|apply IH; exact Hrest].
Qed.

(** The cohort of two patients under [progression] with horizon 10. *)
Lemma progression_cohort_run :
  exists cohort,
    Cohort.simulate (E:=progression) 4 (Cohort.init 0 2 mono_parameters) 10 = Ret cohort
    /\ length (CohortOutcomes.costs (Cohort.cohortOutcomes cohort)) = 2%nat.
Proof.
  eexists. split; [run_concrete; reflexivity|reflexivity].
Qed.

(** X9.  After [Cohort.simulate] on a constructed cohort the collections
    follow the order of the patients: with [patients] the simulated
    patients of the indices 0, 1, ... in that order, the costs and the
    utilities are the patients' totals entry by entry, and the survival
    times and the times to AIDS are those that are set, in the same order. *)
Theorem collections_in_patient_order {E : Externals} (fuel : nat) (id pop_size : Z)
    (p : Parameters) (sim_length : R) (cohort : Cohort.t)
    (Hsim : Cohort.simulate fuel (Cohort.init id pop_size p) sim_length = Ret cohort) :
  let outcomes := Cohort.cohortOutcomes cohort in
  let monitor_of patient := Patient.stateMonitor patient in
  let cu_of patient := PatientStateMonitor.costUtilityMonitor (Patient.stateMonitor patient) in
  exists patients,
    Forall2 (fun i patient =>
               Patient.simulate fuel (Patient.init (id * pop_size + i)%Z p) sim_length
               = Ret patient)
      (range pop_size) patients
    /\ map Patient.id patients = map (fun i => (id * pop_size + i)%Z) (range pop_size)
    /\ CohortOutcomes.costs outcomes
       = map (fun patient => PatientCostUtilityMonitor.totalDiscountedCost (cu_of patient))
           patients
    /\ CohortOutcomes.utilities outcomes
       = map (fun patient => PatientCostUtilityMonitor.totalDiscountedUtility (cu_of patient))
           patients
    /\ CohortOutcomes.survivalTimes outcomes
       = flat_map (fun patient =>
                     recorded (PatientStateMonitor.survivalTime (monitor_of patient)))
           patients
    /\ CohortOutcomes.timesToAIDS outcomes
       = flat_map (fun patient =>
                     recorded (PatientStateMonitor.timeToAIDS (monitor_of patient)))
           patients.
Proof.
  intros outcomes monitor_of cu_of. subst outcomes monitor_of cu_of.
  unfold Cohort.simulate in Hsim.
  apply bind_Ret_inv in Hsim. destruct Hsim as (o & Hfor & Hret).
  inversion Hret; subst cohort; clear Hret.
  destruct (for_patients_simulated _ _ _ _ _ _ Hfor) as (patients & Hpatients & ->).
  exists patients.
  split; [exact (simulated_patients_each _ _ _ _ _ Hpatients)|].
  split; [exact (simulated_patients_ids _ _ _ _ _ Hpatients)|].
  destruct (extracted_collections patients CohortOutcomes.init) as (Hc & Hu & Hs & Ha).
  simpl in *. auto.
Qed.

Lemma collections_in_patient_order_witness :
  exists cohort patients,
    Cohort.simulate (E:=progression) 4 (Cohort.init 0 2 mono_parameters) 10 = Ret cohort
    /\ map Patient.id patients = [0%Z; 1%Z]
    /\ CohortOutcomes.costs (Cohort.cohortOutcomes cohort)
       = map (fun patient =>
                PatientCostUtilityMonitor.totalDiscountedCost
                  (PatientStateMonitor.costUtilityMonitor (Patient.stateMonitor patient)))
           patients.
Proof.
  destruct progression_cohort_run as (cohort & Hsim & _).
  destruct (@collections_in_patient_order progression 4 0%Z 2%Z mono_parameters 10
              cohort Hsim) as (patients & _ & Hids & Hcosts & _).
  exists cohort, patients. split; [exact Hsim|]. split; [exact Hids|exact Hcosts].
Defined.

(** X10.  [Cohort.simulate] does not reset the outcomes: called again on
    the cohort it has returned, it runs the same patients again and
    appends their outcomes, so that each of the four collections then
    holds its entries twice. *)
Theorem second_simulation_appends {E : Externals} (fuel : nat) (id pop_size : Z)
    (p : Parameters) (sim_length : R) (cohort : Cohort.t)
    (Hsim : Cohort.simulate fuel (Cohort.init id pop_size p) sim_length = Ret cohort) :
  let first := Cohort.cohortOutcomes cohort in
  exists cohort',
    Cohort.simulate fuel cohort sim_length = Ret cohort'
    /\ let second := Cohort.cohortOutcomes cohort' in
       CohortOutcomes.costs second
       = CohortOutcomes.costs first ++ CohortOutcomes.costs first
       /\ CohortOutcomes.utilities second
          = CohortOutcomes.utilities first ++ CohortOutcomes.utilities first
       /\ CohortOutcomes.survivalTimes second
          = CohortOutcomes.survivalTimes first ++ CohortOutcomes.survivalTimes first
       /\ CohortOutcomes.timesToAIDS second
          = CohortOutcomes.timesToAIDS first ++ CohortOutcomes.timesToAIDS first.
Proof.
  intros first. subst first.
  unfold Cohort.simulate in Hsim.
  apply bind_Ret_inv in Hsim. destruct Hsim as (o & Hfor & Hret).
  destruct (for_patients_simulated _ _ _ _ _ _ Hfor) as (patients & Hpatients & ->).
  set (o1 := fold_left CohortOutcomes.extract_outcome patients CohortOutcomes.init) in *.
  assert (Hfields : Cohort.id cohort = id /\ Cohort.popSize cohort = pop_size
                    /\ Cohort.params cohort = p
                    /\ Cohort.cohortOutcomes cohort
                       = CohortOutcomes.calculate_cohort_outcomes o1 pop_size)
    by (inversion Hret; simpl; auto).
  destruct Hfields as (Hid & Hpop & Hparams & Hout).
  assert (Hagain : Cohort.simulated_patients fuel cohort sim_length
                     (range (Cohort.popSize cohort)) = Ret patients).
  { rewrite (simulated_patients_same_cohort fuel cohort (Cohort.init id pop_size p))
      by assumption.
    rewrite Hpop. exact Hpatients. }
  unfold Cohort.simulate.
  rewrite (simulated_patients_for_patients _ _ _ _ _ (Cohort.cohortOutcomes cohort) Hagain).
  cbn [bind]. eexists. split; [reflexivity|].
  cbn [Cohort.cohortOutcomes CohortOutcomes.calculate_cohort_outcomes
       CohortOutcomes.costs CohortOutcomes.utilities CohortOutcomes.survivalTimes
       CohortOutcomes.timesToAIDS].
  destruct (extracted_collections patients CohortOutcomes.init) as (Hc & Hu & Hs & Ha).
  destruct (extracted_collections patients (Cohort.cohortOutcomes cohort))
    as (Hc2 & Hu2 & Hs2 & Ha2).
  fold o1 in Hc, Hu, Hs, Ha. simpl in Hc, Hu, Hs, Ha.
  rewrite Hc2, Hu2, Hs2, Ha2, Hout. simpl.
  rewrite Hc, Hu, Hs, Ha. auto.
Qed.

Lemma second_simulation_appends_witness :
  exists cohort cohort',
    Cohort.simulate (E:=progression) 4 (Cohort.init 0 2 mono_parameters) 10 = Ret cohort
    /\ Cohort.simulate (E:=progression) 4 cohort 10 = Ret cohort'
    /\ length (CohortOutcomes.costs (Cohort.cohortOutcomes cohort')) = 4%nat.
Proof.
  destruct progression_cohort_run as (cohort & Hsim & Hlen).
  destruct (@second_simulation_appends progression 4 0%Z 2%Z mono_parameters 10
              cohort Hsim) as (cohort' & Hagain & Hcosts & _).
  exists cohort, cohort'. split; [exact Hsim|]. split; [exact Hagain|].
  rewrite Hcosts, length_app, Hlen. reflexivity.
Defined.
